(** * Pakajo extractor: the [/extract] route of [server.js]

    A shallow embedding of the request handler of [src/server.js]
    (type detection from the URL path and the content-type header, the
    download, the dispatch to the PDF or DOCX extractor, and the translation
    of every failure into an HTTP response), and theorems about it.

    JavaScript strings are sequences of UTF-16 code units; they are modelled
    as [list N].  The built-ins of the language that the handler calls
    ([split], [pop], [trim], [replace] with the two character classes of the
    source, [includes], [slice], [join], [decodeURIComponent], [RegExp.test])
    are written out on that representation.  The WHATWG URL parser, the
    Unicode [toLowerCase] and the UTF-8 decoder of [Buffer.toString] are
    parameters of the development.

    The handler is an async function: it is a program that issues calls
    (the download, the two extraction libraries, the reads and writes of the
    global [pdfjsLib]) and goes on with their answers.  A request alone is
    studied through the runs of this program; requests in flight together
    through an interleaving of such programs on the shared global.  The
    logging of the source is left out. *)

From Stdlib Require Import NArith Lia Bool Ascii String.
From stdpp Require Import base option list strings gmap.

Local Open Scope N_scope.

(** ** JavaScript strings *)

Module Js.

(** A string is the list of its UTF-16 code units. *)
Abbreviation jsstring := (list N).

(** Literals of the source, written as Rocq strings. *)
Definition js (s : string) : jsstring :=
  map Ascii.N_of_ascii (String.list_ascii_of_string s).

(** [v || ''] on a value that is a string or [undefined]. *)
Definition or_empty (v : option jsstring) : jsstring :=
  match v with
  | Some s => s
  | None => []
  end.

(** Truthiness of a string: every string but the empty one. *)
Definition truthy (s : jsstring) : bool :=
  match s with
  | [] => false
  | _ :: _ => true
  end.

(** [a || b] on two values that are strings or [undefined]. *)
Definition or_else (a b : option jsstring) : option jsstring :=
  match a with
  | Some (_ :: _) => a
  | _ => b
  end.

(** [s.split(sep)] for a separator of one code unit: never empty. *)
Fixpoint split (sep : N) (s : jsstring) : list jsstring :=
  match s with
  | [] => [[]]
  | c :: s' =>
      if c =? sep then [] :: split sep s'
      else match split sep s' with
           | seg :: segs => (c :: seg) :: segs
           | [] => [[c]]
           end
  end.

(** [a.pop()]: the last element, [undefined] on the empty array. *)
Definition pop (a : list jsstring) : option jsstring := last a.

(** White space and line terminators, as [String.prototype.trim] removes
    them. *)
Definition isWhiteSpace (c : N) : bool :=
  (9 <=? c) && (c <=? 13)
  || (c =? 32) || (c =? 160) || (c =? 5760)
  || (8192 <=? c) && (c <=? 8202)
  || (c =? 8232) || (c =? 8233) || (c =? 8239) || (c =? 8287)
  || (c =? 12288) || (c =? 65279).

Fixpoint trimStart (s : jsstring) : jsstring :=
  match s with
  | [] => []
  | c :: s' => if isWhiteSpace c then trimStart s' else s
  end.

Definition trimEnd (s : jsstring) : jsstring :=
  reverse (trimStart (reverse s)).

Definition trim (s : jsstring) : jsstring := trimEnd (trimStart s).

(** The class [[\r\n]]. *)
Definition isCrLf (c : N) : bool := (c =? 13) || (c =? 10).

(** The class [[a-z0-9]]. *)
Definition isLowerAlnum (c : N) : bool :=
  (97 <=? c) && (c <=? 122) || (48 <=? c) && (c <=? 57).

(** [s.replace(/[...]/g, '')]: the code units of the class are dropped. *)
Definition remove_all (cls : N -> bool) (s : jsstring) : jsstring :=
  filter (fun c => cls c = false) s.

Fixpoint startsWith (s p : jsstring) : bool :=
  match p, s with
  | [], _ => true
  | _ :: _, [] => false
  | a :: p', b :: s' => (a =? b) && startsWith s' p'
  end.

(** [s.includes(p)] *)
Fixpoint includes (s p : jsstring) : bool :=
  startsWith s p ||
  match s with
  | [] => false
  | _ :: s' => includes s' p
  end.

(** [s.slice(0, n)] *)
Definition slice0 (n : nat) (s : jsstring) : jsstring := take n s.

(** [a.join(sep)] on an array of strings. *)
Fixpoint join (sep : jsstring) (a : list jsstring) : jsstring :=
  match a with
  | [] => []
  | [s] => s
  | s :: a' => s ++ sep ++ join sep a'
  end.

(** The lower-case mapping on the Basic Latin block. *)
Definition asciiLower (c : N) : N :=
  if (65 <=? c) && (c <=? 90) then c + 32 else c.

End Js.
Export Js.

(** ** Thrown values and results *)

(** The body of an upstream error response, [err.response.data]: a string,
    a [Buffer] (its bytes), or any other value.  The handler looks at a value
    of the third kind through [JSON.stringify] only, so such a value is
    represented by what [JSON.stringify] does on it: it throws ([None]),
    returns [undefined] ([Some None]) or returns a string. *)
Inductive Body :=
| BString (s : jsstring)
| BBuffer (bytes : list N)
| BOther (stringified : option (option jsstring)).

(** A headers object: header name to value. *)
Abbreviation Headers := (gmap (list N) (list N)).

(** [err.response] of an axios error. *)
Record ErrResponse := {
  err_status : N;
  err_headers : option Headers;
  err_data : Body
}.

(** A thrown error: its [message], and the [response] an axios error
    carries when the upstream answered. *)
Record JsError := {
  message : jsstring;
  response : option ErrResponse
}.

(** What an expression that may throw evaluates to. *)
Inductive Exn (A : Type) :=
| Ok (a : A)
| Throw (e : JsError).
Arguments Ok {A} a.
Arguments Throw {A} e.

Definition Error (msg : jsstring) : JsError :=
  {| message := msg; response := None |}.

(** ** decodeURIComponent *)

Module Uri.

Definition hexVal (c : N) : option N :=
  if (48 <=? c) && (c <=? 57) then Some (c - 48)
  else if (65 <=? c) && (c <=? 70) then Some (c - 55)
  else if (97 <=? c) && (c <=? 102) then Some (c - 87)
  else None.

(** The input cut into literal code units and [%XX] escapes. *)
Inductive token :=
| Lit (c : N)
| Octet (b : N).

Fixpoint tokens (s : jsstring) : option (list token) :=
  match s with
  | [] => Some []
  | c :: s' =>
      if c =? 37 then
        match s' with
        | h1 :: h2 :: s'' =>
            match hexVal h1, hexVal h2, tokens s'' with
            | Some a, Some b, Some ts => Some (Octet (16 * a + b) :: ts)
            | _, _, _ => None
            end
        | _ => None
        end
      else cons (Lit c) <$> tokens s'
  end.

Definition utf16 (cp : N) : jsstring :=
  if cp <? 65536 then [cp]
  else [55296 + (cp - 65536) / 1024; 56320 + (cp - 65536) mod 1024].

(** A code point that a sequence of the given length may encode: not
    over-long, not a surrogate, at most U+10FFFF. *)
Definition valid (cp min : N) : bool :=
  (min <=? cp) && (cp <=? 1114111)
  && negb ((55296 <=? cp) && (cp <=? 57343)).

(** Escaped octets are read as UTF-8: [need] continuation octets are still
    expected for the code point [cp], whose encoding length allows no code
    point below [min]. *)
Fixpoint utf8 (need : nat) (cp min : N) (ts : list token)
  : option jsstring :=
  match ts with
  | [] => match need with O => Some [] | S _ => None end
  | t :: ts' =>
      match need, t with
      | O, Lit c => cons c <$> utf8 0 0 0 ts'
      | O, Octet b =>
          if b <? 128 then cons b <$> utf8 0 0 0 ts'
          else if (192 <=? b) && (b <? 224) then utf8 1 (b - 192) 128 ts'
          else if (224 <=? b) && (b <? 240) then utf8 2 (b - 224) 2048 ts'
          else if (240 <=? b) && (b <? 248) then utf8 3 (b - 240) 65536 ts'
          else None
      | S _, Lit _ => None
      | S n, Octet b =>
          if (128 <=? b) && (b <? 192) then
            let cp' := 64 * cp + (b - 128) in
            match n with
            | O => if valid cp' min
                   then app (utf16 cp') <$> utf8 0 0 0 ts'
                   else None
            | S _ => utf8 n cp' min ts'
            end
          else None
      end
  end.

End Uri.

(** [decodeURIComponent(s)]: a [URIError] on a malformed escape or on
    escaped octets that are not UTF-8. *)
Definition decodeURIComponent (s : jsstring) : Exn jsstring :=
  match Uri.tokens s ≫= Uri.utf8 0 0 0 with
  | Some d => Ok d
  | None => Throw (Error (js "URI malformed"))
  end.

(** ** Regular expressions *)

Module RegExp.

(** The part of the pattern syntax that the source uses. *)
Inductive regex :=
| Empty
| Never
| Char (c : N)
| Dot
| Seq (r1 r2 : regex)
| Alt (r1 r2 : regex)
| Star (r : regex).

Fixpoint literal (s : jsstring) : regex :=
  match s with
  | [] => Empty
  | c :: s' => Seq (Char c) (literal s')
  end.

(** [.] matches every code unit but the line terminators. *)
Definition isLineTerminator (c : N) : bool :=
  (c =? 10) || (c =? 13) || (c =? 8232) || (c =? 8233).

(** Canonicalization under the [i] flag (without [u]), for the comparison
    with a pattern character of the Basic Latin block: a code unit of
    another block never canonicalizes into this one. *)
Definition canonicalize (c : N) : N :=
  if (97 <=? c) && (c <=? 122) then c - 32 else c.

Section Matcher.
Variable ignoreCase : bool.

Definition char_matches (p c : N) : bool :=
  if ignoreCase then canonicalize p =? canonicalize c else p =? c.

Fixpoint nullable (r : regex) : bool :=
  match r with
  | Empty => true
  | Never => false
  | Char _ => false
  | Dot => false
  | Seq r1 r2 => nullable r1 && nullable r2
  | Alt r1 r2 => nullable r1 || nullable r2
  | Star _ => true
  end.

(** What remains to be matched after the code unit [c]. *)
Fixpoint deriv (c : N) (r : regex) : regex :=
  match r with
  | Empty => Never
  | Never => Never
  | Char p => if char_matches p c then Empty else Never
  | Dot => if isLineTerminator c then Never else Empty
  | Seq r1 r2 =>
      if nullable r1 then Alt (Seq (deriv c r1) r2) (deriv c r2)
      else Seq (deriv c r1) r2
  | Alt r1 r2 => Alt (deriv c r1) (deriv c r2)
  | Star r1 => Seq (deriv c r1) (Star r1)
  end.

(** Some prefix of [s] matches [r]. *)
Fixpoint matches_at (r : regex) (s : jsstring) : bool :=
  nullable r ||
  match s with
  | [] => false
  | c :: s' => matches_at (deriv c r) s'
  end.

(** [r.test(s)]: a match starts somewhere in [s]. *)
Fixpoint test (r : regex) (s : jsstring) : bool :=
  matches_at r s ||
  match s with
  | [] => false
  | _ :: s' => test r s'
  end.

End Matcher.

End RegExp.

(** ** The objects the handler receives *)

(** A parsed URL; the handler reads its [pathname] only. *)
Record URL := { pathname : jsstring }.

(** Built-ins of the runtime that are not written out here. *)
Class Runtime := {
  (** [new URL(s)]: the WHATWG parser; it throws a [TypeError] on an input
      that is not an absolute URL. *)
  new_URL : jsstring -> Exn URL;
  (** [String.prototype.toLowerCase], on all of Unicode. *)
  toLowerCase : jsstring -> jsstring;
  (** [Buffer.prototype.toString('utf8')] on the bytes of a buffer. *)
  utf8Decode : list N -> jsstring
}.

(** The argument of the [axios(...)] call. *)
Record AxiosConfig := {
  url : jsstring;
  method : jsstring;
  responseType : jsstring;
  timeout : N;
  maxRedirects : N
}.

Record Res := { responseUrl : option jsstring }.
Record Request := { res : option Res }.
Record ResponseConfig := { config_url : option jsstring }.

(** What [axios] resolves with; [data] is the body, as bytes. *)
Record AxiosResponse := {
  data : list N;
  headers : option Headers;
  request : option Request;
  config : option ResponseConfig
}.

(** The pdf.js objects: a document, its pages, their text items. *)
Record TextItem := { str : jsstring }.
Record TextContent := { items : list TextItem }.
Record PdfPage := { getTextContent : Exn TextContent }.
Record PdfDoc := { numPages : nat; getPage : nat -> Exn PdfPage }.

(** What [mammoth.extractRawText] resolves with. *)
Record MammothResult := { value : jsstring }.

(** The value of the global [pdfjsLib] once a build is loaded. *)
Inductive PdfjsLib := LegacyBuild | DefaultBuild.

(** How [Promise.race([initPdfjs(), timer])] settles. *)
Inductive RaceOutcome :=
| InitFulfilled
| InitRejected (e : JsError)
| TimerFired.

(** ** Programs *)

(** The calls by which the code reaches outside itself: the collaborators
    it awaits, and the global [pdfjsLib]. *)
Inductive Event :=
| EAxios (cfg : AxiosConfig)
| EReadPdfjsLib
| ECallInitPdfjs
| EAwaitRace (promise : nat) (ms : N)
| EGetDocument (bytes : list N)
| EExtractRawText (buffer : list N)
| EImportLegacy
| EResolveWorker
| ERequireDefault
| EWritePdfjsLib (lib : PdfjsLib)
| EWriteWorkerSrc (src : jsstring).

(** What each call gives back. *)
Definition Ans (e : Event) : Type :=
  match e with
  | EAxios _ => Exn AxiosResponse
  | EReadPdfjsLib => option PdfjsLib
  | ECallInitPdfjs => nat
  | EAwaitRace _ _ => RaceOutcome
  | EGetDocument _ => Exn PdfDoc
  | EExtractRawText _ => Exn MammothResult
  | EImportLegacy => Exn unit
  | EResolveWorker => Exn jsstring
  | ERequireDefault => Exn unit
  | EWritePdfjsLib _ => unit
  | EWriteWorkerSrc _ => unit
  end.

Inductive Prog (R : Type) : Type :=
| Ret (r : R)
| Vis (e : Event) (k : Ans e -> Prog R).
Arguments Ret {R} r.
Arguments Vis {R} e k.

Fixpoint bind {A B} (p : Prog A) (f : A -> Prog B) : Prog B :=
  match p with
  | Ret a => f a
  | Vis e k => Vis e (fun x => bind (k x) f)
  end.

Definition call (e : Event) : Prog (Ans e) := Vis e Ret.

#[export] Instance prog_ret : MRet Prog := fun _ r => Ret r.
#[export] Instance prog_bind : MBind Prog := fun _ _ f p => bind p f.

(** One call with its answer, as a run of a program records it. *)
Inductive Obs :=
| OAxios (cfg : AxiosConfig) (r : Exn AxiosResponse)
| OReadPdfjsLib (v : option PdfjsLib)
| OCallInitPdfjs (promise : nat)
| OAwaitRace (promise : nat) (ms : N) (o : RaceOutcome)
| OGetDocument (bytes : list N) (r : Exn PdfDoc)
| OExtractRawText (buffer : list N) (r : Exn MammothResult)
| OImportLegacy (r : Exn unit)
| OResolveWorker (r : Exn jsstring)
| ORequireDefault (r : Exn unit)
| OWritePdfjsLib (lib : PdfjsLib)
| OWriteWorkerSrc (src : jsstring).

Definition observe (e : Event) : Ans e -> Obs :=
  match e with
  | EAxios cfg => OAxios cfg
  | EReadPdfjsLib => OReadPdfjsLib
  | ECallInitPdfjs => OCallInitPdfjs
  | EAwaitRace p ms => OAwaitRace p ms
  | EGetDocument bytes => OGetDocument bytes
  | EExtractRawText buffer => OExtractRawText buffer
  | EImportLegacy => OImportLegacy
  | EResolveWorker => OResolveWorker
  | ERequireDefault => ORequireDefault
  | EWritePdfjsLib lib => fun _ => OWritePdfjsLib lib
  | EWriteWorkerSrc src => fun _ => OWriteWorkerSrc src
  end.

(** [Runs p t r]: the program [p] can issue the calls of [t], receive the
    answers of [t], and end with [r]. *)
Fixpoint Runs {R} (p : Prog R) (t : list Obs) (r : R) : Prop :=
  match p with
  | Ret r' => t = [] /\ r = r'
  | Vis e k => exists a t', t = observe e a :: t' /\ Runs (k a) t' r
  end.

(** An environment answers every call. *)
Definition Env := forall e : Event, Ans e.

Fixpoint result {R} (env : Env) (p : Prog R) : R :=
  match p with
  | Ret r => r
  | Vis e k => result env (k (env e))
  end.

Fixpoint trace {R} (env : Env) (p : Prog R) : list Obs :=
  match p with
  | Ret _ => []
  | Vis e k => observe e (env e) :: trace env (k (env e))
  end.

(** ** HTTP responses *)

(** A property value of the object given to [res.json]. *)
Inductive JsValue :=
| VString (s : jsstring)
| VNumber (n : N)
| VUndefined.

(** What the handler sends: [res.status(c).json(obj)], or [res.send(text)]
    after [res.set('Content-Type', t)]. *)
Inductive ResBody :=
| Json (obj : list (string * JsValue))
| Sent (contentType text : jsstring).

Record HttpResponse := { status : N; body : ResBody }.

Definition json (c : N) (obj : list (string * JsValue)) : HttpResponse :=
  {| status := c; body := Json obj |}.

(** The value of the property [key] of a JSON body, if it has one. *)
Definition field (key : string) (r : HttpResponse) : option JsValue :=
  match body r with
  | Json obj => snd <$> List.find (fun kv => String.eqb (fst kv) key) obj
  | Sent _ _ => None
  end.

(** ** server.js *)

Section Server.
Context `{Runtime}.

(** [initPdfjs] (lines 8-36): the legacy build by dynamic import, else the
    default build; the logging is left out. *)
Definition initPdfjs : Prog (Exn unit) :=
  r ← call EImportLegacy;
  match r with
  | Ok _ =>
      call (EWritePdfjsLib LegacyBuild);;
      w ← call EResolveWorker;
      match w with
      | Ok workerPath => call (EWriteWorkerSrc workerPath);; mret (Ok ())
      | Throw _ => mret (Ok ())
      end
  | Throw _ =>
      r2 ← call ERequireDefault;
      match r2 with
      | Ok _ =>
          call (EWritePdfjsLib DefaultBuild);;
          call (EWriteWorkerSrc
                  (js "//cdnjs.cloudflare.com/ajax/libs/pdf.js/4.4.168/pdf.worker.min.js"));;
          mret (Ok ())
      | Throw e2 => mret (Throw e2)
      end
  end.

(** The loop of [extractPdf] (lines 47-54).  [todo] is the number of
    iterations left: [numPages + 1 - i]. *)
Fixpoint extractPdf_loop (doc : PdfDoc) (todo i : nat) (text : jsstring)
  : Exn jsstring :=
  match todo with
  | O => Ok text
  | S todo' =>
      match getPage doc i with
      | Throw e => Throw e
      | Ok page =>
          match getTextContent page with
          | Throw e => Throw e
          | Ok content =>
              let strings := map str (items content) in
              extractPdf_loop doc todo' (S i)
                (text ++ (join (js " ") strings ++ [10]))
          end
      end
  end.

(** [extractPdf] (lines 44-55) *)
Definition extractPdf (buffer : list N) : Prog (Exn jsstring) :=
  d ← call (EGetDocument buffer);
  match d with
  | Throw e => mret (Throw e)
  | Ok doc => mret (extractPdf_loop doc (numPages doc) 1 [])
  end.

(** [extractDocx] (lines 58-61) *)
Definition extractDocx (buffer : list N) : Prog (Exn jsstring) :=
  r ← call (EExtractRawText buffer);
  match r with
  | Throw e => mret (Throw e)
  | Ok result => mret (Ok (value result))
  end.

(** Lines 88-89 and 107-108: the file name from the path of a URL. *)
Definition filename_of (u : URL) : Exn jsstring :=
  match decodeURIComponent (or_empty (pop (split 47 (pathname u)))) with
  | Throw e => Throw e
  | Ok decoded => Ok (trim (remove_all isCrLf (trim decoded)))
  end.

(** Lines 90-91 and 109-110: the extension from the file name. *)
Definition ext_of (filename : jsstring) : jsstring :=
  remove_all (fun c => negb (isLowerAlnum c))
    (trim (toLowerCase (or_empty (pop (split 46 filename))))).

(** Line 103 *)
Definition finalUrl_of (response : AxiosResponse) (url : jsstring)
  : jsstring :=
  let responseUrl :=
    match request response with
    | Some rq => match res rq with
                 | Some rs => responseUrl rs
                 | None => None
                 end
    | None => None
    end in
  let configUrl :=
    match config response with
    | Some c => config_url c
    | None => None
    end in
  or_empty (or_else (or_else responseUrl configUrl) (Some url)).

(** Lines 104-114: when the URL of the request gave no file name, the one
    of the final URL; an exception in there is ignored. *)
Definition refine_from_final (filename ext finalUrl : jsstring)
  : jsstring * jsstring :=
  if negb (truthy filename) && truthy finalUrl then
    match new_URL finalUrl with
    | Throw _ => (filename, ext)
    | Ok p =>
        match filename_of p with
        | Throw _ => (filename, ext)
        | Ok filename' => (filename', ext_of filename')
        end
    end
  else (filename, ext).

(** The header lookup of lines 116 and 159. *)
Definition contentType_header (headers : option Headers) : jsstring :=
  or_empty
    match headers with
    | Some h => or_else (h !! js "content-type") (h !! js "Content-Type")
    | None => None
    end.

(** Lines 119-122 *)
Definition infer_from_contentType (ext contentType : jsstring) : jsstring :=
  if negb (truthy ext) then
    if includes contentType (js "pdf") then js "pdf"
    else if includes contentType (js "officedocument")
            || includes contentType (js "word")
            || includes contentType (js "msword")
            || includes contentType (js "application/vnd")
    then js "docx"
    else ext
  else ext.

(** What lines 102-122 compute from the response. *)
Record Detected := {
  filename : jsstring;
  ext : jsstring;
  contentType : jsstring;
  finalUrl : jsstring
}.

Definition detect (url filename0 ext0 : jsstring) (response : AxiosResponse)
  : Detected :=
  let finalUrl := finalUrl_of response url in
  let '(filename, ext) := refine_from_final filename0 ext0 finalUrl in
  let contentType := contentType_header (headers response) in
  {| filename := filename;
     ext := infer_from_contentType ext contentType;
     contentType := contentType;
     finalUrl := finalUrl |}.

(** The rejection of the timer of line 132, and an [await] of the race. *)
Definition race_settled (o : RaceOutcome) : Exn unit :=
  match o with
  | InitFulfilled => Ok ()
  | InitRejected e => Throw e
  | TimerFired => Throw (Error (js "pdfjs init timeout"))
  end.

(** Lines 152-153, reached when the extraction did not throw. *)
Definition send (text : Exn jsstring) : Exn HttpResponse :=
  match text with
  | Throw e => Throw e
  | Ok text =>
      Ok {| status := 200;
            body := Sent (js "text/plain; charset=utf-8") text |}
  end.

Definition not_ready (e : JsError) : HttpResponse :=
  json 503 [("error", VString (js "PDF handler not ready"));
            ("message", VString (message e))].

Definition unsupported (d : Detected) : HttpResponse :=
  json 400
    [("error", VString (js "Unsupported file type... Use .pdf or .docx"));
     ("filename", VString (filename d));
     ("detectedExtension", VString (ext d));
     ("contentType", VString (contentType d));
     ("finalUrl", VString (finalUrl d))].

(** Lines 124-153 *)
Definition dispatch (d : Detected) (response : AxiosResponse)
  : Prog (Exn HttpResponse) :=
  if decide (ext d = js "pdf") then
    pdfjsLib ← call EReadPdfjsLib;
    match pdfjsLib with
    | None =>
        promise ← call ECallInitPdfjs;
        o ← call (EAwaitRace promise 5000);
        match race_settled o with
        | Throw e => mret (Ok (not_ready e))
        | Ok _ => text ← extractPdf (data response); mret (send text)
        end
    | Some _ => text ← extractPdf (data response); mret (send text)
    end
  else if decide (ext d = js "docx") then
    text ← extractDocx (data response); mret (send text)
  else mret (Ok (unsupported d)).

(** The request of lines 94-100. *)
Definition fetch_config (url : jsstring) : AxiosConfig :=
  {| url := url;
     method := js "GET";
     responseType := js "arraybuffer";
     timeout := 30000;
     maxRedirects := 5 |}.

Definition invalid_url (e : JsError) : HttpResponse :=
  json 400 [("error", VString (js "Invalid URL parameter"));
            ("message", VString (message e))].

(** The [try] block, lines 72-153: a response, or the exception that
    reaches the [catch] of line 154. *)
Definition try_block (url : jsstring) : Prog (Exn HttpResponse) :=
  match new_URL url with
  | Throw e => mret (Ok (invalid_url e))
  | Ok parsedUrl =>
      match filename_of parsedUrl with
      | Throw e => mret (Throw e)
      | Ok filename =>
          let ext := ext_of filename in
          r ← call (EAxios (fetch_config url));
          match r with
          | Throw e => mret (Throw e)
          | Ok response => dispatch (detect url filename ext response) response
          end
      end
  end.

(** Lines 160-172 *)
Definition bodyPreview (body : Body) : option jsstring :=
  match body with
  | BString s => Some (slice0 200 s)
  | BBuffer bytes => Some (utf8Decode (take 200 bytes))
  | BOther (Some (Some s)) => Some (slice0 200 s)
  | BOther _ => None
  end.

(** The pattern [/exp.*(fail|expired)/i] of line 179. *)
Definition exp_fail : RegExp.regex :=
  RegExp.Seq (RegExp.literal (js "exp"))
    (RegExp.Seq (RegExp.Star RegExp.Dot)
       (RegExp.Alt (RegExp.literal (js "fail"))
                   (RegExp.literal (js "expired")))).

(** Lines 175-180 *)
Definition isInvalidJwt (upstreamStatus : N)
    (upstreamBodyPreview : option jsstring) : bool :=
  let previewLower := toLowerCase (or_empty upstreamBodyPreview) in
  (upstreamStatus =? 400)
  && (includes previewLower (js "invalidjwt")
      || includes previewLower (34 :: js "exp" ++ [34])
      || RegExp.test true exp_fail (or_empty upstreamBodyPreview)).

Definition preview_value (p : option jsstring) : JsValue :=
  match p with
  | Some s => VString s
  | None => VUndefined
  end.

(** The [catch] block, lines 154-205; the logging is left out. *)
Definition catch_block (err : JsError) : HttpResponse :=
  match response err with
  | Some r =>
      let upstreamStatus := err_status r in
      let upstreamType := contentType_header (err_headers r) in
      let upstreamBodyPreview := bodyPreview (err_data r) in
      if isInvalidJwt upstreamStatus upstreamBodyPreview then
        json 401
          [("error", VString (js "Upstream token invalid or expired"));
           ("upstreamStatus", VNumber upstreamStatus);
           ("upstreamContentType", VString upstreamType);
           ("upstreamBodyPreview", preview_value upstreamBodyPreview);
           ("suggestion",
            VString (js "Regenerate signed URL or refresh token"))]
      else
        json 502
          [("error", VString (js "Upstream fetch failed"));
           ("upstreamStatus", VNumber upstreamStatus);
           ("upstreamContentType", VString upstreamType);
           ("upstreamBodyPreview", preview_value upstreamBodyPreview);
           ("message", VString (message err))]
  | None =>
      json 500 [("error", VString (js "Extraction failed"));
                ("message", VString (message err))]
  end.

Definition missing_url : HttpResponse :=
  json 400 [("error", VString (js "Missing URL parameter"))].

(** Where the [try] statement of lines 72-205 ends. *)
Definition finish (r : Exn HttpResponse) : HttpResponse :=
  match r with
  | Ok sent => sent
  | Throw err => catch_block err
  end.

(** The handler of [GET /extract] (lines 64-206).  [query_url] is
    [req.query.url]: a string, or [undefined]. *)
Definition extract_handler (query_url : option jsstring)
  : Prog HttpResponse :=
  match query_url with
  | Some ((_ :: _) as url) =>
      r ← try_block url;
      mret (finish r)
  | _ => mret missing_url
  end.

End Server.

(** ** The runs of the handler, as data *)

Section Views.
Context `{Runtime}.

(** The text [extractPdf] resolves with, from what [getDocument] gave. *)
Definition pdf_text (d : Exn PdfDoc) : Exn jsstring :=
  match d with
  | Throw e => Throw e
  | Ok doc => extractPdf_loop doc (numPages doc) 1 []
  end.

Definition docx_text (r : Exn MammothResult) : Exn jsstring :=
  match r with
  | Throw e => Throw e
  | Ok result => Ok (value result)
  end.

(** The runs of the dispatch, by the detected extension. *)
Inductive DispatchRun (d : Detected) (response : AxiosResponse)
  : list Obs -> Exn HttpResponse -> Prop :=
| Run_pdf_ready lib doc :
    ext d = js "pdf" ->
    DispatchRun d response
      [OReadPdfjsLib (Some lib); OGetDocument (data response) doc]
      (send (pdf_text doc))
| Run_pdf_init promise o doc :
    ext d = js "pdf" -> race_settled o = Ok () ->
    DispatchRun d response
      [OReadPdfjsLib None; OCallInitPdfjs promise;
       OAwaitRace promise 5000 o; OGetDocument (data response) doc]
      (send (pdf_text doc))
| Run_pdf_not_ready promise o e :
    ext d = js "pdf" -> race_settled o = Throw e ->
    DispatchRun d response
      [OReadPdfjsLib None; OCallInitPdfjs promise; OAwaitRace promise 5000 o]
      (Ok (not_ready e))
| Run_docx m :
    ext d ≠ js "pdf" -> ext d = js "docx" ->
    DispatchRun d response
      [OExtractRawText (data response) m] (send (docx_text m))
| Run_unsupported :
    ext d ≠ js "pdf" -> ext d ≠ js "docx" ->
    DispatchRun d response [] (Ok (unsupported d)).

(** The runs of the whole handler. *)
Inductive HandlerRun : option jsstring -> list Obs -> HttpResponse -> Prop :=
| Run_undefined : HandlerRun None [] missing_url
| Run_empty : HandlerRun (Some []) [] missing_url
| Run_invalid url e :
    url ≠ [] -> new_URL url = Throw e ->
    HandlerRun (Some url) [] (invalid_url e)
| Run_undecodable url parsedUrl e :
    url ≠ [] -> new_URL url = Ok parsedUrl ->
    filename_of parsedUrl = Throw e ->
    HandlerRun (Some url) [] (catch_block e)
| Run_fetch_failed url parsedUrl filename err :
    url ≠ [] -> new_URL url = Ok parsedUrl ->
    filename_of parsedUrl = Ok filename ->
    HandlerRun (Some url) [OAxios (fetch_config url) (Throw err)]
      (catch_block err)
| Run_fetched url parsedUrl filename response t r :
    url ≠ [] -> new_URL url = Ok parsedUrl ->
    filename_of parsedUrl = Ok filename ->
    DispatchRun (detect url filename (ext_of filename) response) response t r ->
    HandlerRun (Some url) (OAxios (fetch_config url) (Ok response) :: t)
      (finish r).

(** The path of a URL string, when it has one. *)
Definition path_of (s : jsstring) : option jsstring :=
  match new_URL s with
  | Ok u => Some (pathname u)
  | Throw _ => None
  end.

(** The text content of page [i], when the page and its content load. *)
Definition page_content (doc : PdfDoc) (i : nat) : Exn TextContent :=
  match getPage doc i with
  | Throw e => Throw e
  | Ok page => getTextContent page
  end.

(** The segment of one page: its strings joined by one space, then one
    newline. *)
Definition page_text (content : TextContent) : jsstring :=
  join (js " ") (map str (items content)) ++ [10].

End Views.

(** ** A runtime and environments for the examples *)

Module Example.

(** What follows the first [://]. *)
Fixpoint after_scheme (s : jsstring) : option jsstring :=
  match s with
  | [] => None
  | _ :: s' => if startsWith s (js "://") then Some (drop 3 s)
               else after_scheme s'
  end.

Fixpoint until (stop : N -> bool) (s : jsstring) : jsstring :=
  match s with
  | [] => []
  | c :: s' => if stop c then [] else c :: until stop s'
  end.

Fixpoint from (start : N -> bool) (s : jsstring) : jsstring :=
  match s with
  | [] => []
  | c :: s' => if start c then s else from start s'
  end.

(** The URL parser on the plain [scheme://host/path?query#fragment]
    strings of the examples, whose path needs no normalization. *)
Definition parse (s : jsstring) : Exn URL :=
  match after_scheme s with
  | None => Throw (Error (js "Invalid URL"))
  | Some rest =>
      let hier := until (fun c => (c =? 63) || (c =? 35)) rest in
      match from (fun c => c =? 47) hier with
      | [] => Ok {| pathname := js "/" |}
      | p => Ok {| pathname := p |}
      end
  end.

(** On strings of the Basic Latin block, [toLowerCase] changes the capital
    letters only, and UTF-8 decodes a byte to the code unit it is. *)
Definition runtime : Runtime :=
  {| new_URL := parse;
     toLowerCase := map asciiLower;
     utf8Decode := fun bytes => bytes |}.

(** An environment from the answers to the calls of one request. *)
Definition env (fetch : Exn AxiosResponse) (pdfjsLib : option PdfjsLib)
    (race : RaceOutcome) (doc : Exn PdfDoc) (docx : Exn MammothResult)
  : Env :=
  fun e =>
    match e with
    | EAxios _ => fetch
    | EReadPdfjsLib => pdfjsLib
    | ECallInitPdfjs => 1%nat
    | EAwaitRace _ _ => race
    | EGetDocument _ => doc
    | EExtractRawText _ => docx
    | EImportLegacy => Ok ()
    | EResolveWorker => Ok (js "/app/node_modules/pdfjs-dist/legacy/build/pdf.worker.mjs")
    | ERequireDefault => Ok ()
    | EWritePdfjsLib _ => ()
    | EWriteWorkerSrc _ => ()
    end.

(** An upstream response with the given content type and body. *)
Definition responded (type : jsstring) (bytes : list N) : AxiosResponse :=
  {| data := bytes;
     headers := Some {[ js "content-type" := type ]};
     request := None;
     config := None |}.

(** An axios error for an upstream answer with the given status and body. *)
Definition rejected (status : N) (bytes : list N) : JsError :=
  {| message := js "Request failed";
     response := Some {| err_status := status;
                         err_headers := Some {[ js "content-type" := js "application/json" ]};
                         err_data := BBuffer bytes |} |}.

(** A document from the strings of its pages. *)
Definition document (pages : list (list jsstring)) : PdfDoc :=
  {| numPages := length pages;
     getPage := fun i =>
       match i with
       | O => Throw (Error (js "Invalid page request."))
       | S j =>
           match pages !! j with
           | Some strs =>
               Ok {| getTextContent := Ok {| items := map Build_TextItem strs |} |}
           | None => Throw (Error (js "Invalid page request."))
           end
       end |}.

(** An environment whose network and libraries fail. *)
Definition failing : Env :=
  env (Throw (Error [])) None TimerFired
              (Throw (Error [])) (Throw (Error [])).

End Example.

(** ** The process: requests and initializations in flight *)

Module Loop.

(** The promise of an [initPdfjs()] call. *)
Inductive PromiseState :=
| Pending
| Fulfilled
| Rejected (e : JsError).

(** How an async function of the process ends: the handler with the
    response it sent, [initPdfjs] by returning or throwing. *)
Inductive Outcome :=
| Responded (sent : HttpResponse)
| Settled (r : Exn unit).

(** An async function in flight: the calls it made with their answers, what
    remains of it to run, and for an [initPdfjs()] call its promise. *)
Record Task := {
  settles : option nat;
  history : list Obs;
  code : Prog Outcome
}.

(** The process: the global [pdfjsLib], the promises of the [initPdfjs()]
    calls made so far, the tasks. *)
Record Process := {
  pdfjsLib : option PdfjsLib;
  promises : list PromiseState;
  tasks : list Task
}.

Section Semantics.
Context `{Runtime}.

Definition handler_task (query_url : option jsstring) : Task :=
  {| settles := None;
     history := [];
     code := sent ← extract_handler query_url; mret (Responded sent) |}.

Definition init_task (promise : nat) : Task :=
  {| settles := Some promise;
     history := [];
     code := r ← initPdfjs; mret (Settled r) |}.

(** Lines 231-233: the module calls [initPdfjs()] when it is loaded. *)
Definition startup : Process :=
  {| pdfjsLib := None; promises := [Pending]; tasks := [init_task 0] |}.

(** The answer to a call in a state of the process.  The global and the
    promises answer for themselves; [env] answers for the network and the
    libraries; [timer] tells whether the timer of a race fires before the
    promise is settled.  A race on a pending promise whose timer has not
    fired has no answer yet. *)
Definition answer (s : Process) (env : Env) (timer : bool) (e : Event)
  : option (Ans e) :=
  match e return option (Ans e) with
  | EReadPdfjsLib => Some (pdfjsLib s)
  | ECallInitPdfjs => Some (length (promises s))
  | EAwaitRace p _ =>
      if timer then Some TimerFired
      else match promises s !! p with
           | Some Fulfilled => Some InitFulfilled
           | Some (Rejected e) => Some (InitRejected e)
           | _ => None
           end
  | EAxios cfg => Some (env (EAxios cfg))
  | EGetDocument bytes => Some (env (EGetDocument bytes))
  | EExtractRawText buffer => Some (env (EExtractRawText buffer))
  | EImportLegacy => Some (env EImportLegacy)
  | EResolveWorker => Some (env EResolveWorker)
  | ERequireDefault => Some (env ERequireDefault)
  | EWritePdfjsLib lib => Some ()
  | EWriteWorkerSrc src => Some ()
  end.

(** The process after task [i] made the call [e]: the assignment of
    line 12 or 27 sets the global, and a call of [initPdfjs] starts a task
    with a promise of its own. *)
Definition after (s : Process) (i : nat) (task : Task) (e : Event)
    (o : Obs) (rest : Prog Outcome) : Process :=
  let task' := {| settles := settles task;
                  history := history task ++ [o];
                  code := rest |} in
  let tasks' := <[i := task']> (tasks s) in
  match e with
  | EWritePdfjsLib lib =>
      {| pdfjsLib := Some lib; promises := promises s; tasks := tasks' |}
  | ECallInitPdfjs =>
      {| pdfjsLib := pdfjsLib s;
         promises := promises s ++ [Pending];
         tasks := tasks' ++ [init_task (length (promises s))] |}
  | _ => {| pdfjsLib := pdfjsLib s; promises := promises s; tasks := tasks' |}
  end.

Definition settled (r : Exn unit) : PromiseState :=
  match r with
  | Ok _ => Fulfilled
  | Throw e => Rejected e
  end.

(** What can happen next in the process: a request arrives, or a task goes
    on by one call, or, at its end, settles its promise.  The runtime runs
    a task without interruption from one [await] to the next; here every
    call is a step of its own, so that the executions of the runtime are
    among the sequences of moves. *)
Inductive Move :=
| Arrive (query_url : option jsstring)
| Resume (i : nat) (env : Env) (timer : bool).

Definition move (s : Process) (m : Move) : option Process :=
  match m with
  | Arrive query_url =>
      Some {| pdfjsLib := pdfjsLib s;
              promises := promises s;
              tasks := tasks s ++ [handler_task query_url] |}
  | Resume i env timer =>
      match tasks s !! i with
      | None => None
      | Some task =>
          match code task with
          | Vis e k =>
              match answer s env timer e with
              | Some a => Some (after s i task e (observe e a) (k a))
              | None => None
              end
          | Ret (Settled r) =>
              match settles task with
              | Some p =>
                  match promises s !! p with
                  | Some Pending =>
                      Some {| pdfjsLib := pdfjsLib s;
                              promises := <[p := settled r]> (promises s);
                              tasks := tasks s |}
                  | _ => None
                  end
              | None => None
              end
          | Ret (Responded _) => None
          end
      end
  end.

Fixpoint moves (s : Process) (ms : list Move) : option Process :=
  match ms with
  | [] => Some s
  | m :: ms' =>
      match move s m with
      | Some s' => moves s' ms'
      | None => None
      end
  end.

(** The states that the process can be in. *)
Definition reachable (s : Process) : Prop :=
  exists ms, moves startup ms = Some s.

Definition is_pending (p : PromiseState) : bool :=
  match p with
  | Pending => true
  | _ => false
  end.

(** The initializations in flight. *)
Definition in_flight (s : Process) : nat :=
  length (List.filter is_pending (promises s)).

(** The promises that the [initPdfjs()] calls of a task returned. *)
Definition called (o : Obs) : option nat :=
  match o with
  | OCallInitPdfjs p => Some p
  | _ => None
  end.

Definition calls (s : Process) : list nat :=
  tasks s ≫= fun task => omap called (history task).

(** The promises that a task has waited for. *)
Definition awaited (o : Obs) : option nat :=
  match o with
  | OAwaitRace p _ _ => Some p
  | _ => None
  end.

(** Every race of the trace is on a promise that a call of the trace, or
    of [before], returned. *)
Fixpoint awaits_own (before : list nat) (t : list Obs) : bool :=
  match t with
  | [] => true
  | OCallInitPdfjs p :: t' => awaits_own (p :: before) t'
  | OAwaitRace p _ _ :: t' =>
      bool_decide (p ∈ before) && awaits_own before t'
  | _ :: t' => awaits_own before t'
  end.

(** After a read of the global that finds it unset, the next call of
    the trace, if there is one, is a call of [initPdfjs]. *)
Fixpoint calls_when_unset (t : list Obs) : bool :=
  match t with
  | [] => true
  | OReadPdfjsLib None :: t' =>
      match t' with
      | [] => true
      | OCallInitPdfjs _ :: _ => calls_when_unset t'
      | _ :: _ => false
      end
  | _ :: t' => calls_when_unset t'
  end.

(** Both, of a trace. *)
Definition well_formed (t : list Obs) : Prop :=
  awaits_own [] t = true /\ calls_when_unset t = true.

End Semantics.

End Loop.

(** ** What holds of the process *)

Section LoopInvariant.
Context `{Runtime}.
Import Loop.

(** What holds of a task at any time: with whatever it does next, it has
    called [initPdfjs] when it found the global unset, and its races are
    on promises of its own calls. *)
Definition task_ok (task : Task) : Prop :=
  forall t r, Runs (code task) t r -> well_formed (history task ++ t).

(** What holds of the process at any time. *)
Record Inv (s : Process) : Prop := {
  inv_tasks : Forall task_ok (tasks s);
  inv_inits : omap settles (tasks s) = seq 0 (length (promises s));
  inv_nodup : NoDup (calls s);
  inv_count : length (promises s) = S (length (calls s));
  inv_bound : Forall (fun p => (0 < p < length (promises s))%nat) (calls s)
}.

End LoopInvariant.

(** ** Concrete requests *)

Module Scenario.
Import Example.

Definition pdf_url : jsstring := js "https://files.example/docs/a.pdf?token=1".

Definition other_pdf_url : jsstring := js "https://files.example/docs/a.pdf?token=2".

Definition folder_url : jsstring := js "https://files.example/download/".

Definition no_doc : Exn PdfDoc := Throw (Error (js "Invalid PDF structure.")).

Definition no_docx : Exn MammothResult := Throw (Error (js "not a zip")).

(** The upstream rejects an expired signed URL. *)
Definition expired : JsError :=
  rejected 400 (js "{ statusCode: 400, error: InvalidJWT }").

Definition env_expired : Env :=
  env (Throw expired) None TimerFired no_doc no_docx.

(** The upstream sends a PDF while [pdfjsLib] is unset and the
    initialization does not end in time. *)
Definition env_not_ready : Env :=
  env (Ok (responded (js "application/pdf") [37; 80; 68; 70])) None
      TimerFired no_doc no_docx.

Definition three_pages : PdfDoc :=
  document [[js "Annual"; js "report"]; [js "2024"]; []].

Definition env_three_pages : Env :=
  env (Ok (responded (js "application/pdf") [37; 80; 68; 70]))
      (Some LegacyBuild) InitFulfilled (Ok three_pages) no_docx.

(** Two requests for PDF documents arrive while the initialization of the
    startup is in flight; each is resumed three times in a row: its
    download resolves, it reads [pdfjsLib], it calls [initPdfjs]. *)
Definition two_requests : list Loop.Move :=
  [Loop.Arrive (Some pdf_url); Loop.Arrive (Some other_pdf_url);
   Loop.Resume 1 env_not_ready false; Loop.Resume 1 env_not_ready false;
   Loop.Resume 1 env_not_ready false;
   Loop.Resume 2 env_not_ready false; Loop.Resume 2 env_not_ready false;
   Loop.Resume 2 env_not_ready false].

Definition after_two_requests : Loop.Process :=
  default Loop.startup (Loop.moves (H := runtime) Loop.startup two_requests).

(** Then the two initializations load the legacy build and settle, and
    each request goes on: its race is won by its initialization, the
    document loads. *)
Definition both_served : list Loop.Move :=
  two_requests
  ++ replicate 5 (Loop.Resume 3 env_three_pages false)
  ++ replicate 5 (Loop.Resume 4 env_three_pages false)
  ++ replicate 2 (Loop.Resume 1 env_three_pages false)
  ++ replicate 2 (Loop.Resume 2 env_three_pages false).

(** The status of the response of a task that has sent one. *)
Definition responded_with (task : Loop.Task) : option N :=
  match Loop.code task with
  | Ret (Loop.Responded sent) => Some (status sent)
  | _ => None
  end.

Definition report_url : jsstring := js "https://example.com/files/report".

Definition pdf_response : AxiosResponse :=
  responded (js "application/pdf") [37; 80; 68; 70].

Definition env_pdf_response : Env :=
  env (Ok pdf_response) None TimerFired no_doc no_docx.

Definition folder_response : AxiosResponse :=
  responded (js "application/vnd.foo+pdf") [37; 80; 68; 70].

(** A response that differs from [pdf_response] in its bytes only. *)
Definition zip_response : AxiosResponse :=
  responded (js "application/pdf") [80; 75; 3; 4].

End Scenario.

(** ** Notions for the further properties *)

(** The request of an observation, when it is one. *)
Definition fetched (o : Obs) : option AxiosConfig :=
  match o with
  | OAxios cfg _ => Some cfg
  | _ => None
  end.

(** The observations of the PDF engine: the global, the initialization, the
    document. *)
Definition of_pdf_engine (o : Obs) : bool :=
  match o with
  | OReadPdfjsLib _ | OCallInitPdfjs _ | OAwaitRace _ _ _
  | OGetDocument _ _ | OWritePdfjsLib _ | OWriteWorkerSrc _
  | OImportLegacy _ | OResolveWorker _ | ORequireDefault _ => true
  | OAxios _ _ | OExtractRawText _ _ => false
  end.


(** The call on [res] that ends a run of the handler: [res.status(c)] then
    [.json(obj)], or [res.set('Content-Type', t)] then [res.send(text)].
    The handler sets no status before [res.send]: the status of [res] is
    then the 200 that Express starts from.  What Express writes for the
    call (no body for a [HEAD] request, a 304 without body for a conditional
    request that is fresh) is decided by Express from the request headers,
    after the handler, and is not described here. *)
Inductive ResCall :=
| Status_json (c : N) (obj : list (string * JsValue))
| Set_send (contentType text : jsstring).

Definition res_call (sent : HttpResponse) : option ResCall :=
  match body sent with
  | Json obj => Some (Status_json (status sent) obj)
  | Sent contentType text =>
      if status sent =? 200 then Some (Set_send contentType text) else None
  end.

(** ** The tasks of the process and the functions they run *)

Section Provenance.
Context `{Runtime}.
Import Loop.




End Provenance.

(** ** What a pattern matches *)

Module Language.
Import RegExp.

Section Matches.
Variable ignoreCase : bool.

(** [Matches r s]: the pattern [r] matches the whole of [s]. *)
Inductive Matches : regex -> jsstring -> Prop :=
| Matches_Empty : Matches Empty []
| Matches_Char p c :
    char_matches ignoreCase p c = true -> Matches (Char p) [c]
| Matches_Dot c : isLineTerminator c = false -> Matches Dot [c]
| Matches_Seq r1 r2 s1 s2 :
    Matches r1 s1 -> Matches r2 s2 -> Matches (Seq r1 r2) (s1 ++ s2)
| Matches_Alt_l r1 r2 s : Matches r1 s -> Matches (Alt r1 r2) s
| Matches_Alt_r r1 r2 s : Matches r2 s -> Matches (Alt r1 r2) s
| Matches_Star_nil r : Matches (Star r) []
| Matches_Star_app r s1 s2 :
    Matches r s1 -> Matches (Star r) s2 -> Matches (Star r) (s1 ++ s2).

End Matches.

(** The same word up to the case of the letters [a-z]. *)
Definition same_word (p s : jsstring) : Prop :=
  Forall2 (fun a b => canonicalize a = canonicalize b) p s.

End Language.

(** ** A UTF-8 decoder *)

Module Utf8.

(** The state of the decoder between two bytes: the continuation bytes
    still expected, the code point so far, and the range that the next
    continuation byte has to be in. *)
Record state := { need : nat; cp : N; lower : N; upper : N }.

Definition idle : state := {| need := 0; cp := 0; lower := 128; upper := 191 |}.

(** A byte read when no sequence is open: the code units it gives at once,
    and the state after it.  U+FFFD stands for a byte that opens nothing. *)
Definition lead (b : N) : jsstring * state :=
  if b <? 128 then ([b], idle)
  else if (194 <=? b) && (b <=? 223) then
    ([], {| need := 1; cp := b - 192; lower := 128; upper := 191 |})
  else if (224 <=? b) && (b <=? 239) then
    ([], {| need := 2; cp := b - 224;
            lower := if b =? 224 then 160 else 128;
            upper := if b =? 237 then 159 else 191 |})
  else if (240 <=? b) && (b <=? 244) then
    ([], {| need := 3; cp := b - 240;
            lower := if b =? 240 then 144 else 128;
            upper := if b =? 244 then 143 else 191 |})
  else ([65533], idle).

(** The decoding of [buf.toString('utf8')]: a sequence that is cut short or
    broken gives one U+FFFD, and the byte that broke it is read again as
    the start of a sequence. *)
Fixpoint decode_from (st : state) (bytes : list N) : jsstring :=
  match bytes with
  | [] => match need st with O => [] | S _ => [65533] end
  | b :: bytes' =>
      match need st with
      | O => let '(out, st') := lead b in out ++ decode_from st' bytes'
      | S n =>
          if (lower st <=? b) && (b <=? upper st) then
            let cp' := 64 * cp st + (b - 128) in
            match n with
            | O => Uri.utf16 cp' ++ decode_from idle bytes'
            | S _ =>
                decode_from
                  {| need := n; cp := cp'; lower := 128; upper := 191 |}
                  bytes'
            end
          else
            let '(out, st') := lead b in
            65533 :: out ++ decode_from st' bytes'
      end
  end.

Definition decode (bytes : list N) : jsstring := decode_from idle bytes.

End Utf8.

(** ** More requests, responses and documents for the examples *)

Module Cases.
Import Example Scenario.

(** The runtime of the examples, with the UTF-8 decoder written out. *)
Definition utf8_runtime : Runtime :=
  {| new_URL := parse;
     toLowerCase := map asciiLower;
     utf8Decode := Utf8.decode |}.

(** A body of 150 times the letter e with an acute accent, which UTF-8
    writes on the two bytes C3 A9: 300 bytes. *)
Definition accents : list N := mjoin (replicate 150 [195; 169]).

(** The upstream answers 404 with this body. *)
Definition env_accents : Env :=
  env (Throw (rejected 404 accents)) None TimerFired no_doc no_docx.




(** A path whose last segment decodes to [ a\nb.pdf ], with white space
    around it and a line feed in it. *)
Definition spaced_path : URL := {| pathname := js "/docs/%20a%0Ab.pdf%20" |}.

Definition docx_url : jsstring := js "https://files.example/docs/letter.docx".

Definition letter : MammothResult := {| value := js "Dear reader" |}.

Definition docx_response : AxiosResponse :=
  responded (js "application/octet-stream") [80; 75; 3; 4].

Definition env_letter : Env :=
  env (Ok docx_response) None TimerFired no_doc (Ok letter).

(** The last segment is a truncated escape sequence. *)
Definition bad_escape_url : jsstring :=
  js "https://files.example/docs/%E0%A4%A.pdf".

Definition notes_url : jsstring := js "https://files.example/docs/notes.txt".

(** A document that says it has three pages and would give a fourth. *)
Definition longer : PdfDoc :=
  {| numPages := 3;
     getPage := getPage (document [[js "Annual"; js "report"]; [js "2024"];
                                   []; [js "Appendix"]]) |}.

(** A document that says it has three pages and gives the first only. *)
Definition torn : PdfDoc :=
  {| numPages := 3;
     getPage := getPage (document [[js "Annual"; js "report"]]) |}.

(** A response that says it is a PDF, after a redirect to [target]. *)
Definition redirected (target : jsstring) : AxiosResponse :=
  {| data := [80; 75; 3; 4];
     headers := Some {[ js "content-type" := js "application/pdf" ]};
     request := Some {| res := Some {| responseUrl := Some target |} |};
     config := None |}.

Definition env_redirected (target : jsstring) : Env :=
  env (Ok (redirected target)) None TimerFired no_doc (Ok letter).

Definition letter_target : jsstring :=
  js "https://cdn.example/store/letter.docx".

Definition bad_escape_target : jsstring :=
  js "https://cdn.example/store/%E0%A4%A".

End Cases.

(** * Proofs *)

Ltac prog_simpl :=
  unfold call, mbind, prog_bind, mret, prog_ret in *; simpl in *.

(** ** Facts about the string operations *)

Section StringFacts.

Lemma split_not_nil sep s : split sep s ≠ [].
Proof. destruct s as [|c s]; simpl; [done|]. by repeat case_match. Qed.

(** A string without the separator is the only piece. *)
Lemma split_no_sep sep (s : jsstring) : sep ∉ s -> split sep s = [s].
Proof.
  induction s as [|c s IH]; intros Hs; simpl; [done|].
  apply not_elem_of_cons in Hs as [Hc Hs].
  rewrite (proj2 (N.eqb_neq c sep)) by done.
  by rewrite IH.
Qed.

Lemma split_cons_ne sep c (s : jsstring) :
  c ≠ sep ->
  exists seg segs, split sep s = seg :: segs
                   /\ split sep (c :: s) = (c :: seg) :: segs.
Proof.
  intros Hc. simpl. rewrite (proj2 (N.eqb_neq c sep)) by done.
  destruct (split sep s) as [|seg segs] eqn:E.
  - by apply split_not_nil in E.
  - eauto.
Qed.

Lemma last_split_cons sep c (s : jsstring) :
  sep ∈ s -> last (split sep (c :: s)) = last (split sep s).
Proof.
  intros Hs. destruct (decide (c = sep)) as [->|Hc].
  - simpl. rewrite N.eqb_refl.
    destruct (split sep s) eqn:E; [by apply split_not_nil in E|done].
  - destruct (split_cons_ne sep c s Hc) as (seg & segs & E1 & E2).
    rewrite E1, E2. destruct segs as [|seg' segs]; [|done].
    exfalso. clear E2. revert seg E1.
    induction s as [|d s IH]; intros seg E1; [by apply elem_of_nil in Hs|].
    simpl in E1. destruct (d =? sep) eqn:Ed.
    + destruct (split sep s) eqn:E; [by apply split_not_nil in E|done].
    + apply N.eqb_neq in Ed. apply elem_of_cons in Hs as [->|Hs]; [done|].
      destruct (split sep s) as [|seg2 segs2] eqn:E;
        [by apply split_not_nil in E|].
      injection E1 as _ ->. by eapply IH.
Qed.

(** The last piece is what follows the last separator. *)
Lemma last_split_app sep (pre suf : jsstring) :
  sep ∉ suf -> last (split sep (pre ++ sep :: suf)) = Some suf.
Proof.
  intros Hsuf. induction pre as [|c pre IH].
  - simpl. rewrite N.eqb_refl, (split_no_sep _ _ Hsuf). done.
  - rewrite <- app_comm_cons, last_split_cons; [done|].
    apply elem_of_app. right. apply elem_of_cons. by left.
Qed.

(** Trimming is invisible to a removal that also removes white space. *)
Lemma remove_all_trimStart cls (s : jsstring) :
  (forall c, isWhiteSpace c = true -> cls c = true) ->
  remove_all cls (trimStart s) = remove_all cls s.
Proof.
  intros Hcls. unfold remove_all. induction s as [|c s IH]; simpl; [done|].
  destruct (isWhiteSpace c) eqn:Ec; [|done].
  rewrite filter_cons_False; [done|]. rewrite (Hcls c Ec). done.
Qed.

Lemma remove_all_trim cls (s : jsstring) :
  (forall c, isWhiteSpace c = true -> cls c = true) ->
  remove_all cls (trim s) = remove_all cls s.
Proof.
  intros Hcls. unfold trim, trimEnd.
  rewrite <- (remove_all_trimStart cls s Hcls).
  generalize (trimStart s) as t. intros t. unfold remove_all at 1.
  rewrite filter_reverse. fold (remove_all cls (trimStart (reverse t))).
  rewrite (remove_all_trimStart _ _ Hcls). unfold remove_all.
  by rewrite filter_reverse, reverse_involutive.
Qed.

Lemma whitespace_not_alnum c :
  isWhiteSpace c = true -> negb (isLowerAlnum c) = true.
Proof.
  intros Hws. destruct (isLowerAlnum c) eqn:Hal; [exfalso|done].
  unfold isWhiteSpace, isLowerAlnum in *.
  rewrite ?orb_true_iff, ?andb_true_iff, ?N.leb_le, ?N.eqb_eq in *. lia.
Qed.

End StringFacts.

(** ** Facts about programs *)

Section ProgFacts.
Context {R : Type}.

(** What an environment computes is a run. *)
Lemma Runs_env (env : Env) (p : Prog R) :
  Runs p (trace env p) (result env p).
Proof. induction p as [r|e k IH]; simpl; eauto. Qed.

Lemma Runs_bind {A} (p : Prog A) (f : A -> Prog R) t r :
  Runs (p ≫= f) t r <->
  exists t1 a t2, Runs p t1 a /\ Runs (f a) t2 r /\ t = t1 ++ t2.
Proof.
  change (p ≫= f) with (bind p f). revert t.
  induction p as [a|e k IH]; intros t; simpl.
  - split.
    + intros Hf. exists [], a, t. eauto.
    + intros (t1 & a' & t2 & [-> ->] & Hf & ->). done.
  - split.
    + intros (x & t' & -> & Hk). apply IH in Hk as (t1 & a & t2 & ? & ? & ->).
      exists (observe e x :: t1), a, t2. eauto 10.
    + intros (t1 & a & t2 & (x & t' & -> & Hk) & Hf & ->).
      exists x, (t' ++ t2). split; [done|]. apply IH. eauto 10.
Qed.

End ProgFacts.

(** ** The runs of the handler *)

Section HandlerRuns.
Context `{Runtime}.

Lemma extractPdf_runs buffer t r :
  Runs (extractPdf buffer) t r ->
  exists d, t = [OGetDocument buffer d] /\ r = pdf_text d.
Proof.
  unfold extractPdf. prog_simpl. intros (d & t' & -> & Hk).
  exists d. destruct d; simpl in Hk; by destruct Hk as [-> ->].
Qed.

Lemma extractDocx_runs buffer t r :
  Runs (extractDocx buffer) t r ->
  exists m, t = [OExtractRawText buffer m] /\ r = docx_text m.
Proof.
  unfold extractDocx. prog_simpl. intros (m & t' & -> & Hk).
  exists m. destruct m; simpl in Hk; by destruct Hk as [-> ->].
Qed.

Lemma dispatch_runs d response t r :
  Runs (dispatch d response) t r -> DispatchRun d response t r.
Proof.
  unfold dispatch, extractPdf, extractDocx.
  destruct (decide (ext d = js "pdf")) as [Hpdf|Hpdf].
  - prog_simpl. intros ([lib|] & t' & -> & Hk); simpl in Hk.
    + destruct Hk as (doc & t1 & -> & Hk).
      destruct doc as [doc|e]; simpl in Hk; destruct Hk as [-> ->];
        by apply (Run_pdf_ready _ _ lib).
    + destruct Hk as (promise & t1 & -> & o & t2 & -> & Hk).
      destruct (race_settled o) as [[]|e] eqn:Ho; simpl in Hk.
      * destruct Hk as (doc & t1 & -> & Hk).
        destruct doc as [doc|e]; simpl in Hk; destruct Hk as [-> ->];
          by apply Run_pdf_init.
      * destruct Hk as [-> ->]. by constructor.
  - destruct (decide (ext d = js "docx")) as [Hdocx|Hdocx].
    + prog_simpl. intros (m & t1 & -> & Hk).
      destruct m as [m|e]; simpl in Hk; destruct Hk as [-> ->];
        by apply Run_docx.
    + intros [-> ->]. by constructor.
Qed.

Lemma handler_runs query_url t sent :
  Runs (extract_handler query_url) t sent -> HandlerRun query_url t sent.
Proof.
  unfold extract_handler. destruct query_url as [[|c url]|].
  - intros [-> ->]. constructor.
  - intros Hk. apply Runs_bind in Hk as (t1 & r & t2 & Hx & [-> ->] & ->).
    rewrite app_nil_r. revert Hx. unfold try_block.
    destruct (new_URL (c :: url)) as [parsedUrl|e] eqn:Hurl.
    + destruct (filename_of parsedUrl) as [filename|e] eqn:Hname.
      * prog_simpl. intros ([response|err] & t' & -> & Hk).
        -- apply dispatch_runs in Hk. by econstructor.
        -- simpl in Hk. destruct Hk as [-> ->].
           by eapply (Run_fetch_failed (c :: url)).
      * intros [-> ->]. by eapply (Run_undecodable (c :: url)).
    + intros [-> ->]. by apply (Run_invalid (c :: url)).
  - intros [-> ->]. constructor.
Qed.

End HandlerRuns.

(** ** The fetch and the upstream errors *)

Section Fetch.
Context `{Runtime}.

(** The dispatch issues no request of its own. *)
Lemma dispatch_no_fetch d response t r cfg a :
  DispatchRun d response t r -> OAxios cfg a ∉ t.
Proof.
  intros Hrun Hin. destruct Hrun;
    repeat (apply elem_of_cons in Hin as [Hin|Hin]; [discriminate|]);
    by apply elem_of_nil in Hin.
Qed.

(** The one request of a run, and what the run does with its outcome. *)
Lemma handler_fetch query_url t sent cfg a :
  HandlerRun query_url t sent -> OAxios cfg a ∈ t ->
  query_url = Some (url cfg) /\ cfg = fetch_config (url cfg) /\
  forall err, a = Throw err -> sent = catch_block err.
Proof.
  intros Hrun Hin. destruct Hrun as [| | | |u ? ? err'|u ? ? response t r];
    try by apply elem_of_nil in Hin.
  - apply elem_of_cons in Hin as [Hin|Hin]; [|by apply elem_of_nil in Hin].
    injection Hin as -> ->. split; [done|split; [done|]]. by intros ? [= ->].
  - apply elem_of_cons in Hin as [Hin|Hin].
    + injection Hin as -> ->. split; [done|split; [done|]]. by intros ? [=].
    + by eapply dispatch_no_fetch in Hin.
Qed.

(** C8, as the code has it: every request that the handler issues is a GET
    with the body as raw bytes ([arraybuffer]), a timeout of 30000 ms and at
    most 5 redirects; and when it fails with an upstream response, the
    preview in the answer is the first 200 code units of a string body, the
    UTF-8 decoding of the first 200 bytes of a binary body (the bytes are
    cut, then decoded), and the first 200 code units of the JSON text of
    any other body ([undefined] when [JSON.stringify] gives no string). *)
Theorem C8_fetch_config_and_preview query_url t sent cfg a :
  Runs (extract_handler query_url) t sent -> OAxios cfg a ∈ t ->
  query_url = Some (url cfg)
  /\ method cfg = js "GET"
  /\ responseType cfg = js "arraybuffer"
  /\ timeout cfg = 30000
  /\ maxRedirects cfg = 5
  /\ forall err r, a = Throw err -> response err = Some r ->
       field "upstreamBodyPreview" sent =
       Some match err_data r with
            | BString s => VString (take 200 s)
            | BBuffer bytes => VString (utf8Decode (take 200 bytes))
            | BOther (Some (Some text)) => VString (take 200 text)
            | BOther _ => VUndefined
            end.
Proof.
  intros Hrun Hin. apply handler_runs in Hrun.
  destruct (handler_fetch _ _ _ _ _ Hrun Hin) as (Hq & Hcfg & Herr).
  split; [done|]. rewrite Hcfg. do 4 (split; [done|]).
  intros err r -> Hr. rewrite (Herr err eq_refl).
  unfold catch_block. rewrite Hr.
  destruct (isInvalidJwt _ _); unfold field; simpl;
    by destruct (err_data r) as [?|?|[[?|]|]].
Qed.

(** C2: an upstream error response is answered with 401 and a
    [suggestion] exactly when its status is 400 and the preview, in lower
    case, contains [invalidjwt] or ["exp"] with its quotes, or the preview
    matches [/exp.*(fail|expired)/i]; every other one is answered with 502
    and the error [Upstream fetch failed]. *)
Theorem C2_upstream_error_classification query_url t sent cfg err r :
  Runs (extract_handler query_url) t sent ->
  OAxios cfg (Throw err) ∈ t -> response err = Some r ->
  let preview := or_empty (bodyPreview (err_data r)) in
  let previewLower := toLowerCase preview in
  let expired :=
    err_status r = 400
    /\ (includes previewLower (js "invalidjwt") = true
        \/ includes previewLower (34 :: js "exp" ++ [34]) = true
        \/ RegExp.test true exp_fail preview = true) in
  (status sent = 401 /\ is_Some (field "suggestion" sent) <-> expired)
  /\ (~ expired ->
      status sent = 502
      /\ field "error" sent = Some (VString (js "Upstream fetch failed"))).
Proof.
  intros Hrun Hin Hr preview previewLower expired.
  apply handler_runs in Hrun.
  destruct (handler_fetch _ _ _ _ _ Hrun Hin) as (_ & _ & Herr).
  rewrite (Herr err eq_refl). unfold catch_block. rewrite Hr.
  assert (Hiff : isInvalidJwt (err_status r) (bodyPreview (err_data r)) = true
                 <-> expired).
  { unfold isInvalidJwt, expired, previewLower, preview.
    rewrite andb_true_iff, !orb_true_iff, N.eqb_eq. tauto. }
  destruct (isInvalidJwt _ _); simpl.
  - split; [|intros Hne; exfalso; apply Hne; by apply Hiff].
    split; [intros _; by apply Hiff|]. intros _. split; [done|].
    unfold field. simpl. eauto.
  - split; [|done]. split.
    + by intros [[=] _].
    + intros He. apply Hiff in He. done.
Qed.

End Fetch.

(** ** The [url] parameter *)

Section UrlParameter.
Context `{Runtime}.

(** C7, as the code has it: a [url] that is a non-empty string which
    [new URL] rejects is answered with 400, [Invalid URL parameter] and the
    message of the parser, before any request, and so never with 500; a
    [url] that is missing or empty is answered with 400 and
    [Missing URL parameter].  The strings that [new URL] accepts are not
    spoken of here. *)
Theorem C7_invalid_or_missing_url query_url t sent :
  Runs (extract_handler query_url) t sent ->
  match query_url with
  | None | Some [] =>
      t = [] /\
      sent = json 400 [("error", VString (js "Missing URL parameter"))]
  | Some url =>
      forall e, new_URL url = Throw e ->
        t = [] /\
        sent = json 400 [("error", VString (js "Invalid URL parameter"));
                         ("message", VString (message e))]
  end.
Proof.
  intros Hrun. apply handler_runs in Hrun.
  destruct Hrun as [| |u e Hu He|u p e Hu Hp|u p f err Hu Hp|u p f r t r' Hu Hp];
    try done; destruct u as [|c u]; try done; intros e' He';
    first [rewrite He' in He; by injection He as ->
          |rewrite He' in Hp; discriminate].
Qed.

End UrlParameter.

(** ** Type detection *)

Section Detection.
Context `{Runtime}.

(** With a [.] in the file name, the extension is made from what follows
    the last one. *)
Lemma ext_of_after_last_dot (stem suffix : jsstring) :
  46 ∉ suffix ->
  ext_of (stem ++ 46 :: suffix)
  = remove_all (fun c => negb (isLowerAlnum c)) (toLowerCase suffix).
Proof.
  intros Hdot. unfold ext_of, pop. rewrite last_split_app by done. simpl.
  apply remove_all_trim, whitespace_not_alnum.
Qed.

(** Without one, it is made from the whole file name. *)
Lemma ext_of_no_dot (filename : jsstring) :
  46 ∉ filename ->
  ext_of filename
  = remove_all (fun c => negb (isLowerAlnum c)) (toLowerCase filename).
Proof.
  intros Hdot. unfold ext_of, pop. rewrite split_no_sep by done. simpl.
  apply remove_all_trim, whitespace_not_alnum.
Qed.

(** C1, at a URL whose file name has no [.]: the handler takes the whole
    name [report] for the extension, so that the content type of the
    response is not consulted and the request is rejected as unsupported. *)
Theorem C1_extensionless_name_is_its_own_extension response t sent :
  let url := js "https://example.com/files/report" in
  new_URL url = Ok {| pathname := js "/files/report" |} ->
  toLowerCase (js "report") = js "report" ->
  Runs (extract_handler (Some url)) t sent ->
  OAxios (fetch_config url) (Ok response) ∈ t ->
  sent = json 400
    [("error", VString (js "Unsupported file type... Use .pdf or .docx"));
     ("filename", VString (js "report"));
     ("detectedExtension", VString (js "report"));
     ("contentType", VString (contentType_header (headers response)));
     ("finalUrl", VString (finalUrl_of response url))].
Proof.
  intros url Hurl Hlower Hrun Hin. apply handler_runs in Hrun.
  assert (Hname : filename_of {| pathname := js "/files/report" |}
                  = Ok (js "report")) by reflexivity.
  assert (Hext : ext_of (js "report") = js "report").
  { rewrite ext_of_no_dot by (apply (bool_decide_unpack _); by vm_compute).
    by rewrite Hlower. }
  inversion Hrun as [| | | |? ? ? err|? p f response' t' r ? Hp Hf Hd];
    simplify_eq; try (by apply elem_of_nil in Hin).
  - apply elem_of_cons in Hin as [[=]|Hin]. by apply elem_of_nil in Hin.
  - apply elem_of_cons in Hin as [Hin|Hin];
      [|by eapply dispatch_no_fetch in Hin].
    injection Hin as <-. rewrite Hurl in Hp. injection Hp as <-.
    rewrite Hname in Hf. injection Hf as <-. rewrite Hext in Hd.
    unfold detect, refine_from_final, infer_from_contentType in Hd.
    simpl in Hd. inversion Hd; simpl in *; try discriminate; try done.
Qed.

Lemma finalUrl_truthy response (url : jsstring) :
  url ≠ [] -> truthy (finalUrl_of response url) = true.
Proof.
  intros Hurl. unfold finalUrl_of.
  generalize (match request response with
              | Some rq => match res rq with
                           | Some rs => responseUrl rs
                           | None => None
                           end
              | None => None
              end).
  generalize (match config response with
              | Some c => config_url c
              | None => None
              end).
  intros b a. destruct a as [[|??]|], b as [[|??]|], url; done.
Qed.

(** C5: when the path gave no extension, the content type decides:
    [pdf] if it contains [pdf]; otherwise [docx] if it contains one of
    [officedocument], [word], [msword], [application/vnd]; otherwise none. *)
Theorem C5_contentType_fallback url filename0 ext0 response :
  snd (refine_from_final filename0 ext0 (finalUrl_of response url)) = [] ->
  let contentType := contentType_header (headers response) in
  let detected := ext (detect url filename0 ext0 response) in
  let docx_marker :=
    includes contentType (js "officedocument") = true
    \/ includes contentType (js "word") = true
    \/ includes contentType (js "msword") = true
    \/ includes contentType (js "application/vnd") = true in
  (includes contentType (js "pdf") = true -> detected = js "pdf")
  /\ (includes contentType (js "pdf") = false -> docx_marker ->
      detected = js "docx")
  /\ (includes contentType (js "pdf") = false -> ~ docx_marker ->
      detected = []).
Proof.
  intros Hext contentType detected docx_marker.
  unfold detected, detect.
  destruct (refine_from_final _ _ _) as [filename1 ext1]. simpl in *.
  subst ext1. unfold infer_from_contentType. simpl.
  fold contentType.
  assert (Hm : includes contentType (js "officedocument")
               || includes contentType (js "word")
               || includes contentType (js "msword")
               || includes contentType (js "application/vnd") = true
               <-> docx_marker).
  { unfold docx_marker. rewrite !orb_true_iff. tauto. }
  destruct (includes contentType (js "pdf")).
  - split; [done|]. split; done.
  - match goal with |- context [if ?b then js "docx" else _] =>
      destruct b end.
    + split; [done|]. split; [done|]. intros _ Hn. exfalso. by apply Hn, Hm.
    + split; [done|]. split; [|done]. intros _ Hd. by apply Hm in Hd.
Qed.

(** C10: [pdf] is looked for first: a content type that contains [pdf]
    gives [pdf], whether or not it contains a marker of [docx]. *)
Theorem C10_pdf_before_docx url filename0 ext0 response :
  snd (refine_from_final filename0 ext0 (finalUrl_of response url)) = [] ->
  includes (contentType_header (headers response)) (js "pdf") = true ->
  ext (detect url filename0 ext0 response) = js "pdf".
Proof.
  intros Hext Hpdf. unfold detect.
  destruct (refine_from_final _ _ _) as [filename1 ext1]. simpl in *.
  subst ext1. unfold infer_from_contentType. simpl. by rewrite Hpdf.
Qed.

(** C4: two requests whose URLs have the same path, whose final URLs
    have the same path, and whose responses have the same content type, are
    detected alike, whatever the bytes of the two bodies. *)
Theorem C4_extension_ignores_body url1 url2 u1 u2 filename1 filename2
    response1 response2 :
  url1 ≠ [] -> url2 ≠ [] ->
  new_URL url1 = Ok u1 -> new_URL url2 = Ok u2 ->
  pathname u1 = pathname u2 ->
  filename_of u1 = Ok filename1 -> filename_of u2 = Ok filename2 ->
  path_of (finalUrl_of response1 url1) = path_of (finalUrl_of response2 url2) ->
  contentType_header (headers response1)
  = contentType_header (headers response2) ->
  ext (detect url1 filename1 (ext_of filename1) response1)
  = ext (detect url2 filename2 (ext_of filename2) response2).
Proof.
  intros Hne1 Hne2 Hu1 Hu2 Hpath Hf1 Hf2 Hfinal Htype.
  destruct u1 as [p1], u2 as [p2]. simpl in Hpath. subst p2.
  rewrite Hf1 in Hf2. injection Hf2 as <-.
  unfold detect, refine_from_final.
  rewrite !finalUrl_truthy by done. rewrite Htype.
  unfold path_of in Hfinal.
  destruct (truthy filename1); simpl; [done|].
  destruct (new_URL (finalUrl_of response1 url1)) as [[q1]|],
           (new_URL (finalUrl_of response2 url2)) as [[q2]|];
    simplify_eq/=; [|done].
  by destruct (filename_of {| pathname := q2 |}).
Qed.

End Detection.

(** ** PDF extraction *)

Section Pdf.
Context `{Runtime}.

(** The loop appends the segments of the pages [i], [i+1], ... in turn. *)
Lemma extractPdf_loop_spec doc todo : forall i text contents,
  Forall2 (fun i content => page_content doc i = Ok content)
          (seq i todo) contents ->
  extractPdf_loop doc todo i text
  = Ok (text ++ concat (map page_text contents)).
Proof.
  induction todo as [|todo IH]; intros i text contents Hpages; simpl in *.
  - apply Forall2_nil_inv_l in Hpages as ->. simpl. by rewrite app_nil_r.
  - apply Forall2_cons_inv_l in Hpages as (content & rest & Hc & Hrest & ->).
    unfold page_content in Hc.
    destruct (getPage doc i) as [page|]; [|done].
    rewrite Hc, (IH _ _ _ Hrest). simpl.
    by rewrite <- app_assoc.
Qed.

(** The loop stops at the first page that does not load. *)
Lemma extractPdf_loop_throw doc todo : forall i text e,
  page_content doc i = Throw e ->
  extractPdf_loop doc (S todo) i text = Throw e.
Proof.
  intros i text e Hc. simpl. unfold page_content in Hc.
  destruct (getPage doc i) as [page|e']; [by rewrite Hc|].
  by injection Hc as ->.
Qed.

(** C3: for a document that loads with its [n] pages, the text is the
    concatenation, for the pages 1 to [n] in this order, of the strings of
    the page joined by one space and followed by one newline; with three
    pages, three such segments. *)
Theorem C3_text_is_pages_in_order buffer doc contents t text :
  Runs (extractPdf buffer) t text ->
  OGetDocument buffer (Ok doc) ∈ t ->
  Forall2 (fun i content => page_content doc i = Ok content)
          (seq 1 (numPages doc)) contents ->
  text = Ok (concat (map page_text contents))
  /\ length contents = numPages doc
  /\ (numPages doc = 3%nat ->
      exists c1 c2 c3, contents = [c1; c2; c3] /\
        text = Ok ((join (js " ") (map str (items c1)) ++ [10])
                   ++ (join (js " ") (map str (items c2)) ++ [10])
                   ++ (join (js " ") (map str (items c3)) ++ [10]))).
Proof.
  intros Hrun Hin Hpages.
  apply extractPdf_runs in Hrun as (d & -> & ->).
  apply elem_of_cons in Hin as [Hin|Hin]; [|by apply elem_of_nil in Hin].
  injection Hin as <-. simpl.
  rewrite (extractPdf_loop_spec _ _ _ _ _ Hpages). simpl.
  assert (Hlen : length contents = numPages doc).
  { apply Forall2_length in Hpages. by rewrite length_seq in Hpages. }
  split; [done|]. split; [done|]. intros Hn. rewrite Hn in Hlen.
  destruct contents as [|c1 [|c2 [|c3 [|]]]]; try done.
  exists c1, c2, c3. split; [done|]. simpl. by rewrite app_nil_r.
Qed.

End Pdf.

(** ** The PDF engine at the time of a request *)

Section Engine.
Context `{Runtime}.

(** C6: a request detected as [pdf] reads [pdfjsLib]; when it is still
    unset the handler calls [initPdfjs] itself and waits for it against a
    timer of 5000 ms; when the timer fires first, or the initialization
    fails, the answer is 503 [PDF handler not ready] with the message of the
    error, and no extraction is attempted; otherwise the document is
    extracted, and a failure of the extraction is answered with 500
    [Extraction failed]. *)
Theorem C6_on_demand_init url parsedUrl filename fetched t sent :
  Runs (extract_handler (Some url)) t sent ->
  new_URL url = Ok parsedUrl -> filename_of parsedUrl = Ok filename ->
  OAxios (fetch_config url) (Ok fetched) ∈ t ->
  ext (detect url filename (ext_of filename) fetched) = js "pdf" ->
  exists pdfjsLib rest,
    t = OAxios (fetch_config url) (Ok fetched)
        :: OReadPdfjsLib pdfjsLib :: rest
    /\ (pdfjsLib = None ->
        exists promise o rest',
          rest = OCallInitPdfjs promise :: OAwaitRace promise 5000 o :: rest'
          /\ match o with
             | TimerFired =>
                 rest' = [] /\
                 sent = json 503
                   [("error", VString (js "PDF handler not ready"));
                    ("message", VString (js "pdfjs init timeout"))]
             | InitRejected e =>
                 rest' = [] /\
                 sent = json 503
                   [("error", VString (js "PDF handler not ready"));
                    ("message", VString (message e))]
             | InitFulfilled =>
                 exists doc,
                   rest' = [OGetDocument (data fetched) doc]
                   /\ sent = finish (send (pdf_text doc))
                   /\ forall e, pdf_text doc = Throw e -> response e = None ->
                        sent = json 500
                          [("error", VString (js "Extraction failed"));
                           ("message", VString (message e))]
             end).
Proof.
  intros Hrun Hurl Hname Hin Hpdf. apply handler_runs in Hrun.
  inversion Hrun as [| | | |? ? ? err|? p f response' t' r ? Hp Hf Hd];
    simplify_eq; try (by apply elem_of_nil in Hin).
  - apply elem_of_cons in Hin as [[=]|Hin]. by apply elem_of_nil in Hin.
  - apply elem_of_cons in Hin as [Hin|Hin];
      [|by eapply dispatch_no_fetch in Hin].
    injection Hin as <-.
    rewrite Hurl in Hp. injection Hp as <-.
    rewrite Hname in Hf. injection Hf as <-.
    inversion Hd as [lib doc|promise o doc ? Ho|promise o e ? Ho| |];
      simplify_eq; try done.
    + eexists _, _. split; [done|]. done.
    + eexists _, _. split; [done|]. intros _. eexists _, _, _.
      split; [done|]. destruct o; simplify_eq/=.
      eexists. split; [done|]. split; [done|].
      intros e -> He. simpl. unfold catch_block. by rewrite He.
    + eexists _, _. split; [done|]. intros _. eexists _, _, _.
      split; [done|]. destruct o; simplify_eq/=; done.
Qed.

End Engine.

(** ** No initialization is shared *)

Section LoopFacts.
Context `{Runtime}.
Import Loop.

Lemma bind_insert_app {A B} (f : A -> list B) (l : list A) i a a' x :
  l !! i = Some a -> f a' = f a ++ x ->
  <[i:=a']> l ≫= f ≡ₚ (l ≫= f) ++ x.
Proof.
  intros Hi Hf. revert i Hi.
  induction l as [|b l IH]; intros [|i] Hi; simpl in Hi; simplify_eq.
  - change (<[0%nat:=a']> (a :: l)) with (a' :: l).
    rewrite !bind_cons, Hf. rewrite <- !app_assoc.
    by rewrite (Permutation_app_comm x).
  - change (<[S i:=a']> (b :: l)) with (b :: <[i:=a']> l).
    rewrite !bind_cons, (IH _ Hi). by rewrite app_assoc.
Qed.

Lemma NoDup_bind_lookup {A B} (f : A -> list B) (l : list A) i j a b x :
  NoDup (l ≫= f) -> l !! i = Some a -> l !! j = Some b ->
  x ∈ f a -> x ∈ f b -> i = j.
Proof.
  revert i j. induction l as [|c l IH]; intros i j Hnd Hi Hj Ha Hb;
    [done|].
  rewrite bind_cons in Hnd. apply NoDup_app in Hnd as (_ & Hdisj & Hl).
  assert (Hin : forall k d, l !! k = Some d -> x ∈ f d -> x ∈ l ≫= f).
  { intros k d Hk Hd. apply list_elem_of_bind. exists d. split; [done|].
    by eapply list_elem_of_lookup_2. }
  destruct i as [|i], j as [|j]; simplify_eq/=; [done| | |].
  - exfalso. eapply Hdisj; eauto.
  - exfalso. eapply Hdisj; eauto.
  - f_equal. eauto.
Qed.

(** A race of a trace is on a promise of an earlier call of the trace, and
    this is so in every prefix. *)
Lemma awaits_own_prefix h : forall before t p,
  awaits_own before (h ++ t) = true ->
  p ∈ omap awaited h -> p ∈ before \/ p ∈ omap called h.
Proof.
  induction h as [|o h IH]; intros before t p Hown Hp; simpl in *.
  - by apply elem_of_nil in Hp.
  - destruct o; simpl in *;
      try (by eapply IH);
      try (apply andb_true_iff in Hown as [Hb Hown];
           apply bool_decide_eq_true in Hb;
           apply elem_of_cons in Hp as [->|Hp]; [by left|by eapply IH]).
    destruct (IH _ _ _ Hown Hp) as [Hin|Hin].
    + apply elem_of_cons in Hin as [->|Hin]; [right; by left|by left].
    + right. by right.
Qed.

(** After an unset global, a call of [initPdfjs] comes next, and this is
    so in every prefix. *)
Lemma calls_when_unset_prefix pre : forall o rest,
  calls_when_unset (pre ++ OReadPdfjsLib None :: o :: rest) = true ->
  exists p, o = OCallInitPdfjs p.
Proof.
  induction pre as [|a pre IH]; intros o rest Hcalls.
  - simpl in Hcalls. destruct o; try discriminate. eauto.
  - destruct a as [| [lib|] | | | | | | | | |];
      try (by apply (IH o rest)).
    destruct pre as [|b pre]; [discriminate|].
    destruct b; try discriminate. by apply (IH o rest).
Qed.

(** The handler calls [initPdfjs] when it finds the global unset, and
    races on the promise that its own call returned. *)
Lemma handler_well_formed query_url t r :
  Runs (code (handler_task query_url)) t r -> well_formed t.
Proof.
  simpl. intros Hrun.
  apply Runs_bind in Hrun as (t1 & sent & t2 & Hrun & [-> ->] & ->).
  rewrite app_nil_r. apply handler_runs in Hrun.
  destruct Hrun as [| | | | |? ? ? ? ? ? ? ? ? Hd]; try done.
  destruct Hd; split; simpl; try done;
    by rewrite bool_decide_eq_true_2 by apply list_elem_of_here.
Qed.

(** [initPdfjs] reads no global and waits for no promise. *)
Lemma init_well_formed promise t r :
  Runs (code (init_task promise)) t r -> well_formed t.
Proof.
  simpl. unfold initPdfjs. prog_simpl.
  intros ([[]|e] & t1 & -> & Hrun); simpl in Hrun.
  - destruct Hrun as ([] & t2 & -> & [w|e] & t3 & -> & Hrun); simpl in Hrun.
    + by destruct Hrun as ([] & t4 & -> & -> & _).
    + by destruct Hrun as [-> _].
  - destruct Hrun as ([[]|e2] & t2 & -> & Hrun); simpl in Hrun.
    + by destruct Hrun as ([] & t3 & -> & [] & t4 & -> & -> & _).
    + by destruct Hrun as [-> _].
Qed.

Lemma Inv_startup : Inv startup.
Proof.
  split; simpl.
  - apply Forall_singleton. intros t r Hrun. by eapply init_well_formed.
  - done.
  - constructor.
  - done.
  - constructor.
Qed.

Lemma omap_insert_same {A B} (f : A -> option B) (l : list A) i a a' :
  l !! i = Some a -> f a' = f a -> omap f (<[i:=a']> l) = omap f l.
Proof.
  intros Hi Hf. revert i Hi.
  induction l as [|b l IH]; intros [|i] Hi; simpl in Hi; simplify_eq.
  - simpl. by rewrite Hf.
  - change (<[S i:=a']> (b :: l)) with (b :: <[i:=a']> l).
    change (omap f (b :: <[i:=a']> l))
      with (from_option (fun y => y :: omap f (<[i:=a']> l))
                        (omap f (<[i:=a']> l)) (f b)).
    by rewrite (IH _ Hi).
Qed.

Lemma called_observe e (a : Ans e) :
  called (observe e a)
  = match e return Ans e -> option nat with
    | ECallInitPdfjs => fun p => Some p
    | _ => fun _ => None
    end a.
Proof. by destruct e. Qed.

Lemma Inv_move s m s' : Inv s -> move s m = Some s' -> Inv s'.
Proof.
  intros [Htasks Hinits Hnodup Hcount Hbound] Hmove.
  destruct m as [query_url|i env timer]; simpl in Hmove.
  - injection Hmove as <-. split; simpl; unfold calls; simpl.
    + apply Forall_app. split; [done|]. apply Forall_singleton.
      intros t r Hrun. by eapply handler_well_formed.
    + rewrite omap_app. simpl. by rewrite app_nil_r.
    + by rewrite bind_app, bind_cons, app_nil_r.
    + by rewrite bind_app, bind_cons, app_nil_r.
    + by rewrite bind_app, bind_cons, app_nil_r.
  - destruct (tasks s !! i) as [task|] eqn:Hi; [|done].
    assert (Hok : task_ok task).
    { eapply Forall_lookup_1 in Htasks; eauto. }
    destruct (code task) as [[sent|r]|e k] eqn:Hcode; [done| |].
    + destruct (settles task) as [p|]; [|done].
      destruct (promises s !! p) as [[| |]|]; try done.
      injection Hmove as <-.
      split; simpl; unfold calls; simpl; rewrite ?length_insert; done.
    + destruct (answer s env timer e) as [a|] eqn:Ha; [|done].
      injection Hmove as <-. unfold after.
      set (task' := {| settles := settles task;
                       history := history task ++ [observe e a];
                       code := k a |}).
      assert (Hok' : task_ok task').
      { intros t r Hrun. simpl. rewrite <- app_assoc. simpl.
        apply (Hok _ r). rewrite Hcode. simpl. eauto. }
      assert (Hperm : <[i:=task']> (tasks s)
                        ≫= (fun task => omap called (history task))
                      ≡ₚ calls s ++ omap called [observe e a]).
      { eapply bind_insert_app; [done|]. simpl. by rewrite omap_app. }
      simpl in Hperm. rewrite called_observe in Hperm.
      assert (Htasks' : Forall task_ok (<[i:=task']> (tasks s))).
      { by apply Forall_insert. }
      assert (Hsettles : omap settles (<[i:=task']> (tasks s))
                         = omap settles (tasks s)).
      { by eapply omap_insert_same. }
      destruct e; simpl in *;
        try (rewrite app_nil_r in Hperm; split; simpl; unfold calls; simpl;
             rewrite ?Hperm, ?Hsettles; done).
      injection Ha as <-.
      split; simpl; unfold calls; simpl.
      * apply Forall_app. split; [done|]. apply Forall_singleton.
        intros t r Hrun. by eapply init_well_formed.
      * rewrite omap_app, Hsettles, Hinits, length_app. simpl.
        by rewrite Nat.add_1_r, seq_S.
      * rewrite bind_app, bind_cons, app_nil_r. simpl. rewrite Hperm.
        apply NoDup_app. split; [done|]. split; [|apply NoDup_singleton].
        intros p Hp Hp'. apply list_elem_of_singleton in Hp' as ->.
        eapply Forall_forall in Hbound; [|done]. lia.
      * rewrite bind_app, bind_cons, app_nil_r. simpl. rewrite Hperm.
        rewrite !length_app. simpl. lia.
      * rewrite bind_app, bind_cons, app_nil_r. simpl. rewrite Hperm.
        rewrite length_app. simpl. apply Forall_app. split.
        -- eapply Forall_impl; [done|]. simpl. lia.
        -- repeat constructor; lia.
Qed.

Lemma Inv_moves ms : forall s s', Inv s -> moves s ms = Some s' -> Inv s'.
Proof.
  induction ms as [|m ms IH]; intros s s' Hinv Hmoves; simpl in Hmoves.
  - by injection Hmoves as <-.
  - destruct (move s m) as [s1|] eqn:Hmove; [|done].
    eapply IH; [|done]. by eapply Inv_move.
Qed.

Lemma answer_timer s env e : is_Some (answer s env true e).
Proof. destruct e; simpl; eauto. Qed.

Lemma after_lookup s i task e o rest :
  tasks s !! i = Some task ->
  tasks (after s i task e o rest) !! i
  = Some {| settles := settles task;
            history := history task ++ [o];
            code := rest |}.
Proof.
  intros Hi. apply lookup_lt_Some in Hi.
  destruct e; simpl; rewrite ?lookup_app_l by (by rewrite length_insert);
    by apply list_lookup_insert_eq.
Qed.

(** A task is never held up by the others: with its timers firing, it
    runs to its end. *)
Lemma task_completes (p : Prog Outcome) : forall s i task,
  tasks s !! i = Some task -> code task = p ->
  exists ms s' task',
    moves s ms = Some s' /\ tasks s' !! i = Some task'
    /\ exists o, code task' = Ret o.
Proof.
  induction p as [o|e k IH]; intros s i task Hi Hcode.
  - exists [], s, task. eauto.
  - destruct (answer_timer s Example.failing e) as [a Ha].
    destruct (IH a _ i _ (after_lookup s i task e (observe e a) (k a) Hi)
                eq_refl) as (ms & s' & task' & Hms & Hi' & Hend).
    exists (Resume i Example.failing true :: ms), s', task'.
    split; [|done]. simpl. by rewrite Hi, Hcode, Ha.
Qed.

(** The [initPdfjs()] calls of the process: a task that finds [pdfjsLib]
    unset calls [initPdfjs] next; every call returns a promise of its own,
    so that there are as many promises as calls by requests and one more,
    that of the startup; no promise is waited for by two requests, nor is
    the one of the startup by any: a request waits for the promise of its
    own call, and with its timers firing it runs to its end whatever the
    others do.  What the calls share in the runtime, the module that the
    [import] of line 11 or the [require] of line 27 loads once, is not in
    the source and not described here. *)
Lemma requests_call_initPdfjs_themselves (s : Process) :
  reachable s ->
  (forall i task pre o post,
     tasks s !! i = Some task ->
     history task = pre ++ OReadPdfjsLib None :: o :: post ->
     exists p, o = OCallInitPdfjs p)
  /\ omap settles (tasks s) = seq 0 (length (promises s))
  /\ length (promises s) = S (length (calls s))
  /\ (forall i j ti tj p,
        tasks s !! i = Some ti -> tasks s !! j = Some tj ->
        p ∈ omap awaited (history ti) -> p ∈ omap awaited (history tj) ->
        i = j /\ p ≠ 0%nat /\ p ∈ omap called (history ti))
  /\ (forall i task,
        tasks s !! i = Some task ->
        exists ms s' task',
          moves s ms = Some s' /\ tasks s' !! i = Some task'
          /\ exists o, code task' = Ret o).
Proof.
  intros [ms Hms].
  destruct (Inv_moves ms _ _ Inv_startup Hms)
    as [Htasks Hinits Hnodup Hcount Hbound].
  assert (Hwf : forall k tk, tasks s !! k = Some tk ->
            well_formed (history tk ++ trace Example.failing (code tk))).
  { intros k tk Hk. eapply Forall_lookup_1 in Htasks; [|done].
    apply (Htasks _ _ (Runs_env Example.failing (code tk))). }
  split.
  { intros i task pre o post Hi Hhist.
    destruct (Hwf _ _ Hi) as [_ Hcalls]. rewrite Hhist in Hcalls.
    rewrite <- app_assoc in Hcalls. simpl in Hcalls.
    by eapply calls_when_unset_prefix. }
  split; [done|]. split; [done|].
  split; [|intros i task Hi; by eapply task_completes].
  intros i j ti tj p Hi Hj Hpi Hpj.
  assert (Hcalled : forall k tk, tasks s !! k = Some tk ->
            p ∈ omap awaited (history tk) -> p ∈ omap called (history tk)).
  { intros k tk Hk Hp. destruct (Hwf _ _ Hk) as [Hown _].
    eapply awaits_own_prefix in Hown as [Hin|Hin]; [|done..].
    by apply elem_of_nil in Hin. }
  assert (Hci := Hcalled _ _ Hi Hpi). assert (Hcj := Hcalled _ _ Hj Hpj).
  split; [|split; [|done]].
  - eapply (NoDup_bind_lookup _ _ _ _ _ _ _ Hnodup Hi Hj Hci Hcj).
  - assert (Hin : p ∈ calls s).
    { apply list_elem_of_bind. exists ti. split; [done|].
      by eapply list_elem_of_lookup_2. }
    eapply Forall_forall in Hbound; [|done]. lia.
Qed.

End LoopFacts.

(** ** The theorems at concrete requests *)

Section Witnesses.
Import Example Scenario.

Lemma after_two_requests_reachable :
  Loop.reachable (H := runtime) after_two_requests.
Proof.
  exists two_requests. unfold after_two_requests.
  destruct (Loop.moves Loop.startup two_requests) eqn:E; [done|].
  by vm_compute in E.
Qed.

Lemma C8_witness :
  let p := extract_handler (H := runtime) (Some pdf_url) in
  Runs p (trace env_expired p) (result env_expired p)
  /\ OAxios (fetch_config pdf_url) (Throw expired) ∈ trace env_expired p
  /\ timeout (fetch_config pdf_url) = 30000
  /\ field "upstreamBodyPreview" (result env_expired p)
     = Some (VString (js "{ statusCode: 400, error: InvalidJWT }")).
Proof.
  intros p.
  assert (Hrun := Runs_env env_expired p).
  assert (Hin : OAxios (fetch_config pdf_url) (Throw expired)
                ∈ trace env_expired p) by (vm_compute; left).
  split; [done|]. split; [done|].
  destruct (C8_fetch_config_and_preview (H := runtime) _ _ _ _ _ Hrun Hin)
    as (_ & _ & _ & Htimeout & _ & Hpreview).
  split; [done|]. by rewrite (Hpreview expired _ eq_refl eq_refl).
Defined.

Lemma C2_witness :
  let p := extract_handler (H := runtime) (Some pdf_url) in
  Runs p (trace env_expired p) (result env_expired p)
  /\ OAxios (fetch_config pdf_url) (Throw expired) ∈ trace env_expired p
  /\ status (result env_expired p) = 401
  /\ is_Some (field "suggestion" (result env_expired p)).
Proof.
  intros p.
  assert (Hrun := Runs_env env_expired p).
  assert (Hin : OAxios (fetch_config pdf_url) (Throw expired)
                ∈ trace env_expired p) by (vm_compute; left).
  split; [done|]. split; [done|].
  apply (C2_upstream_error_classification (H := runtime)
           _ _ _ _ _ _ Hrun Hin eq_refl).
  split; [done|]. left. by vm_compute.
Defined.

Lemma C7_witness :
  let p := extract_handler (H := runtime) (Some (js "not a url")) in
  Runs p (trace env_expired p) (result env_expired p)
  /\ new_URL (Runtime := runtime) (js "not a url")
     = Throw (Error (js "Invalid URL"))
  /\ trace env_expired p = []
  /\ result env_expired p
     = json 400 [("error", VString (js "Invalid URL parameter"));
                 ("message", VString (js "Invalid URL"))].
Proof.
  intros p. assert (Hrun := Runs_env env_expired p).
  split; [done|]. split; [by vm_compute|].
  apply (C7_invalid_or_missing_url (H := runtime) _ _ _ Hrun
           (Error (js "Invalid URL"))).
  by vm_compute.
Defined.

(** C7 as it is stated fails at the empty string: the parameter is
    present, it is not a URL, and the answer is [Missing URL parameter],
    without a message. *)
Lemma C7_counterexample :
  ~ (forall (rt : Runtime) (url : jsstring) (e : JsError) t sent,
       new_URL url = Throw e ->
       Runs (extract_handler (Some url)) t sent ->
       status sent = 400
       /\ field "error" sent = Some (VString (js "Invalid URL parameter"))
       /\ is_Some (field "message" sent)).
Proof.
  intros Hclaim.
  destruct (Hclaim runtime [] (Error (js "Invalid URL")) [] missing_url)
    as (_ & Herror & _); [by vm_compute|done|].
  vm_compute in Herror. discriminate.
Qed.

Lemma C1_witness :
  let p := extract_handler (H := runtime) (Some report_url) in
  new_URL (Runtime := runtime) report_url
  = Ok {| pathname := js "/files/report" |}
  /\ toLowerCase (Runtime := runtime) (js "report") = js "report"
  /\ Runs p (trace env_pdf_response p) (result env_pdf_response p)
  /\ OAxios (fetch_config report_url) (Ok pdf_response)
     ∈ trace env_pdf_response p
  /\ field "detectedExtension" (result env_pdf_response p)
     = Some (VString (js "report"))
  /\ field "contentType" (result env_pdf_response p)
     = Some (VString (js "application/pdf")).
Proof.
  intros p. assert (Hrun := Runs_env env_pdf_response p).
  assert (Hin : OAxios (fetch_config report_url) (Ok pdf_response)
                ∈ trace env_pdf_response p) by (vm_compute; left).
  split; [by vm_compute|]. split; [by vm_compute|].
  split; [done|]. split; [done|].
  rewrite (C1_extensionless_name_is_its_own_extension (H := runtime)
             pdf_response _ _ eq_refl eq_refl Hrun Hin).
  split; by vm_compute.
Defined.

Lemma C5_witness :
  snd (refine_from_final (H := runtime) [] []
         (finalUrl_of pdf_response folder_url)) = []
  /\ includes (contentType_header (headers pdf_response)) (js "pdf") = true
  /\ ext (detect (H := runtime) folder_url [] [] pdf_response) = js "pdf".
Proof.
  assert (Hext : snd (refine_from_final (H := runtime) [] []
                        (finalUrl_of pdf_response folder_url)) = [])
    by (by vm_compute).
  split; [done|]. split; [by vm_compute|].
  apply (C5_contentType_fallback (H := runtime) _ _ _ _ Hext).
  by vm_compute.
Defined.

Lemma C10_witness :
  snd (refine_from_final (H := runtime) [] []
         (finalUrl_of folder_response folder_url)) = []
  /\ includes (contentType_header (headers folder_response)) (js "pdf")
     = true
  /\ includes (contentType_header (headers folder_response))
              (js "application/vnd") = true
  /\ ext (detect (H := runtime) folder_url [] [] folder_response) = js "pdf".
Proof.
  split; [by vm_compute|]. split; [by vm_compute|]. split; [by vm_compute|].
  apply (C10_pdf_before_docx (H := runtime)); by vm_compute.
Defined.

Lemma C4_witness :
  new_URL (Runtime := runtime) pdf_url = Ok {| pathname := js "/docs/a.pdf" |}
  /\ new_URL (Runtime := runtime) other_pdf_url
     = Ok {| pathname := js "/docs/a.pdf" |}
  /\ filename_of {| pathname := js "/docs/a.pdf" |} = Ok (js "a.pdf")
  /\ data pdf_response ≠ data zip_response
  /\ ext (detect (H := runtime) pdf_url (js "a.pdf")
            (ext_of (H := runtime) (js "a.pdf")) pdf_response)
     = ext (detect (H := runtime) other_pdf_url (js "a.pdf")
              (ext_of (H := runtime) (js "a.pdf")) zip_response).
Proof.
  split; [by vm_compute|]. split; [by vm_compute|]. split; [by vm_compute|].
  split; [done|].
  apply (C4_extension_ignores_body (H := runtime) pdf_url other_pdf_url
           {| pathname := js "/docs/a.pdf" |}
           {| pathname := js "/docs/a.pdf" |});
    solve [done | by vm_compute].
Defined.

Lemma C3_witness :
  let p := extractPdf [37; 80; 68; 70] in
  Runs p (trace env_three_pages p) (result env_three_pages p)
  /\ OGetDocument [37; 80; 68; 70] (Ok three_pages)
     ∈ trace env_three_pages p
  /\ result env_three_pages p
     = Ok (js "Annual report" ++ [10] ++ js "2024" ++ [10] ++ [10]).
Proof.
  intros p. assert (Hrun := Runs_env env_three_pages p).
  assert (Hin : OGetDocument [37; 80; 68; 70] (Ok three_pages)
                ∈ trace env_three_pages p) by left.
  split; [done|]. split; [done|].
  refine (proj1 (C3_text_is_pages_in_order _ three_pages
    [ {| items := [ {| str := js "Annual" |}; {| str := js "report" |} ] |};
      {| items := [ {| str := js "2024" |} ] |};
      {| items := [] |} ] _ _ Hrun Hin _)).
  repeat constructor.
Defined.

Lemma C6_witness :
  let p := extract_handler (H := runtime) (Some pdf_url) in
  Runs p (trace env_not_ready p) (result env_not_ready p)
  /\ OAxios (fetch_config pdf_url) (Ok pdf_response) ∈ trace env_not_ready p
  /\ ext (detect (H := runtime) pdf_url (js "a.pdf")
            (ext_of (H := runtime) (js "a.pdf")) pdf_response) = js "pdf"
  /\ exists pdfjsLib rest,
       trace env_not_ready p
       = OAxios (fetch_config pdf_url) (Ok pdf_response)
         :: OReadPdfjsLib pdfjsLib :: rest.
Proof.
  intros p. assert (Hrun := Runs_env env_not_ready p).
  assert (Hin : OAxios (fetch_config pdf_url) (Ok pdf_response)
                ∈ trace env_not_ready p) by (vm_compute; left).
  assert (Hpdf : ext (detect (H := runtime) pdf_url (js "a.pdf")
                        (ext_of (H := runtime) (js "a.pdf")) pdf_response)
                 = js "pdf") by (by vm_compute).
  split; [done|]. split; [done|]. split; [done|].
  destruct (C6_on_demand_init (H := runtime) pdf_url
              {| pathname := js "/docs/a.pdf" |} (js "a.pdf") pdf_response
              _ _ Hrun eq_refl eq_refl Hin Hpdf)
    as (pdfjsLib & rest & Ht & _).
  by exists pdfjsLib, rest.
Defined.

(** C8 as it is stated fails for a binary body with characters of more
    than one byte: of 150 letters of two bytes each, the preview has the
    100 that the first 200 bytes hold, not the 150 of the decoded body. *)
Lemma C8_counterexample :
  ~ (forall (rt : Runtime) query_url t sent cfg err r bytes,
       Runs (extract_handler query_url) t sent ->
       OAxios cfg (Throw err) ∈ t -> response err = Some r ->
       err_data r = BBuffer bytes ->
       field "upstreamBodyPreview" sent
       = Some (VString (take 200 (utf8Decode bytes)))).
Proof.
  intros Hclaim.
  pose (p := extract_handler (H := Cases.utf8_runtime) (Some pdf_url)).
  assert (Hin : OAxios (fetch_config pdf_url)
                  (Throw (rejected 404 Cases.accents))
                ∈ trace Cases.env_accents p) by (vm_compute; left).
  specialize (Hclaim Cases.utf8_runtime _ _ _ _ _ _ Cases.accents
                (Runs_env Cases.env_accents p) Hin eq_refl eq_refl).
  assert (Hlen := f_equal (fun v => match v with
                                    | Some (VString preview) => length preview
                                    | _ => 0%nat
                                    end) Hclaim).
  vm_compute in Hlen. discriminate.
Qed.

End Witnesses.

(** ** Examples *)

Section Examples.
Import Example Scenario.

Example split_path :
  split 47 (js "/a/b/report.final.docx")
  = [[]; js "a"; js "b"; js "report.final.docx"].
Proof. reflexivity. Qed.

Example trim_spaces : trim (js "  a b  ") = js "a b".
Proof. reflexivity. Qed.

Example join_strings : join (js " ") [js "a"; js "b"; js "c"] = js "a b c".
Proof. reflexivity. Qed.

Example decode_escapes :
  decodeURIComponent (js "a%20b%2Epdf") = Ok (js "a b.pdf")
  /\ decodeURIComponent (js "%E2%84%AA") = Ok [8490]
  /\ decodeURIComponent (js "%F0%9F%98%80") = Ok [55357; 56832].
Proof. repeat split; reflexivity. Qed.

Example decode_malformed :
  decodeURIComponent (js "%zz") = Throw (Error (js "URI malformed"))
  /\ decodeURIComponent (js "%C0%80") = Throw (Error (js "URI malformed"))
  /\ decodeURIComponent (js "%ED%A0%80") = Throw (Error (js "URI malformed")).
Proof. repeat split; reflexivity. Qed.

Example exp_fail_matches :
  RegExp.test true exp_fail (js "token EXP check Failed") = true
  /\ RegExp.test true exp_fail (js "exp claim: expired") = true
  /\ RegExp.test true exp_fail (js "jwt expired") = false
  /\ RegExp.test true exp_fail (js "failed: exp") = false.
Proof. repeat split; by vm_compute. Qed.

(** The file name and the extension of [/a/b/report.final.docx?x=1]. *)
Example report_final_docx :
  let url := js "https://files.example/a/b/report.final.docx?x=1" in
  new_URL (Runtime := runtime) url
  = Ok {| pathname := js "/a/b/report.final.docx" |}
  /\ filename_of {| pathname := js "/a/b/report.final.docx" |}
     = Ok (js "report.final.docx")
  /\ ext_of (H := runtime) (js "report.final.docx") = js "docx".
Proof. repeat split; by vm_compute. Qed.

Example pdf_in_any_case :
  ext_of (H := runtime) (js "a.PDF") = js "pdf"
  /\ ext_of (H := runtime) (js "a.pdf") = js "pdf"
  /\ ext_of (H := runtime) (js "a.PdF") = js "pdf".
Proof. repeat split; by vm_compute. Qed.

(** A path without a last segment: the content type decides. *)
Example folder_with_pdf_type :
  status (result env_three_pages
            (extract_handler (H := runtime) (Some folder_url))) = 200.
Proof. by vm_compute. Qed.

(** An upstream 404 is a 502, whatever its body says. *)
Example not_found_with_jwt_body :
  status (result (env (Throw (rejected 404 (js "InvalidJWT"))) None
                      TimerFired no_doc no_docx)
            (extract_handler (H := runtime) (Some pdf_url))) = 502.
Proof. by vm_compute. Qed.

(** A last segment without a [.] is its own extension: [/files/pdf] is
    handed to the PDF engine, whatever the content type. *)
Example segment_named_pdf :
  trace (env (Ok (responded (js "text/html") [60; 104; 49; 62]))
             (Some LegacyBuild) InitFulfilled no_doc no_docx)
        (extract_handler (H := runtime)
           (Some (js "https://example.com/files/pdf")))
  = [OAxios (fetch_config (js "https://example.com/files/pdf"))
       (Ok (responded (js "text/html") [60; 104; 49; 62]));
     OReadPdfjsLib (Some LegacyBuild);
     OGetDocument [60; 104; 49; 62] no_doc].
Proof. by vm_compute. Qed.

(** A path that does not decode is an internal failure. *)
Example undecodable_path :
  status (result env_three_pages
            (extract_handler (H := runtime)
               (Some (js "https://files.example/docs/%zz.pdf")))) = 500.
Proof. by vm_compute. Qed.

(** The two requests of [two_requests], each with an initialization of
    its own, are both served. *)
Example two_requests_served :
  (fun s => (Loop.in_flight s, omap responded_with (Loop.tasks s)))
    <$> Loop.moves (H := runtime) Loop.startup both_served
  = Some (1%nat, [200; 200]).
Proof. by vm_compute. Qed.

End Examples.

(** * Further properties *)

(** ** File names and extensions *)

Section Names.
Context `{Runtime}.

Lemma trimStart_head (s : jsstring) c :
  head (trimStart s) = Some c -> isWhiteSpace c = false.
Proof.
  induction s as [|d s IH]; simpl; [done|].
  destruct (isWhiteSpace d) eqn:Hd; [done|]. by intros [= <-].
Qed.

Lemma trimStart_last (s : jsstring) :
  trimStart s = [] \/ last (trimStart s) = last s.
Proof.
  induction s as [|d s IH]; simpl; [by left|].
  destruct (isWhiteSpace d); [|by right].
  destruct s as [|d' s]; [by left|].
  destruct IH as [IH|IH]; [by left|right]. by rewrite IH.
Qed.

Lemma trimStart_elem (s : jsstring) c : c ∈ trimStart s -> c ∈ s.
Proof.
  induction s as [|d s IH]; simpl; [done|].
  destruct (isWhiteSpace d); [|done]. intros Hc. right. by apply IH.
Qed.

Lemma trim_elem (s : jsstring) c : c ∈ trim s -> c ∈ s.
Proof.
  unfold trim, trimEnd. intros Hc. rewrite elem_of_reverse in Hc.
  apply trimStart_elem in Hc. rewrite elem_of_reverse in Hc.
  by apply trimStart_elem.
Qed.

Lemma trim_last (s : jsstring) c :
  last (trim s) = Some c -> isWhiteSpace c = false.
Proof.
  unfold trim, trimEnd. rewrite last_reverse. apply trimStart_head.
Qed.

Lemma trim_head (s : jsstring) c :
  head (trim s) = Some c -> isWhiteSpace c = false.
Proof.
  unfold trim, trimEnd. rewrite head_reverse. intros Hc.
  destruct (trimStart_last (reverse (trimStart s))) as [E|E].
  - by rewrite E in Hc.
  - rewrite E, last_reverse in Hc. by eapply trimStart_head.
Qed.

(** X1: the file name that the handler reads off a path has no carriage
    return and no line feed, and neither starts nor ends with white
    space. *)
Theorem filename_is_sanitized (u : URL) (filename : jsstring) :
  filename_of u = Ok filename ->
  (forall c, c ∈ filename -> c ≠ 13 /\ c ≠ 10)
  /\ (forall c, head filename = Some c -> isWhiteSpace c = false)
  /\ (forall c, last filename = Some c -> isWhiteSpace c = false).
Proof.
  unfold filename_of.
  destruct (decodeURIComponent _) as [decoded|e]; [|done].
  intros [= <-]. split; [|split].
  - intros c Hc. apply trim_elem in Hc. unfold remove_all in Hc.
    apply list_elem_of_filter in Hc as [Hc _]. unfold isCrLf in Hc.
    apply orb_false_iff in Hc as [H13 H10].
    by apply N.eqb_neq in H13, H10.
  - apply trim_head.
  - apply trim_last.
Qed.

(** X2: the extension that the handler detects is made of the characters
    [a-z0-9] only, whether it comes from the path of the request, from the
    path of the final URL or from the content type. *)
Theorem detected_extension_is_lower_alnum url filename0 response :
  Forall (fun c => isLowerAlnum c = true)
         (ext (detect url filename0 (ext_of filename0) response)).
Proof.
  assert (Hext : forall f, Forall (fun c => isLowerAlnum c = true) (ext_of f)).
  { intros f. apply Forall_forall. intros c Hc. unfold ext_of, remove_all in Hc.
    apply list_elem_of_filter in Hc as [Hc _]. by apply negb_false_iff in Hc. }
  assert (Hinfer : forall e ct, Forall (fun c => isLowerAlnum c = true) e ->
            Forall (fun c => isLowerAlnum c = true)
                   (infer_from_contentType e ct)).
  { intros e ct He. unfold infer_from_contentType.
    repeat case_match; try done; by apply Forall_forall; vm_compute;
      intros c Hc; repeat (apply elem_of_cons in Hc as [->|Hc]; [done|]);
      apply elem_of_nil in Hc. }
  unfold detect, refine_from_final.
  repeat case_match; simplify_eq; simpl; by apply Hinfer.
Qed.

End Names.

(** ** What a request does, and what it answers *)

Ltac elem_cases H :=
  repeat (apply elem_of_cons in H as [H|H]);
  try (by apply elem_of_nil in H).

(** A status of the [catch] block is one of the statuses of the handler. *)
Ltac widen H := elem_cases H; rewrite H; repeat constructor.

Section Requests.
Context `{Runtime}.

Lemma catch_block_shape err :
  status (catch_block err) ∈ [401; 500; 502]
  /\ exists msg, field "error" (catch_block err) = Some (VString msg).
Proof.
  unfold catch_block. destruct (response err) as [r|].
  - destruct (isInvalidJwt _ _); simpl; split; eauto; repeat constructor.
  - simpl. split; eauto. repeat constructor.
Qed.

Lemma finish_send_shape (text : Exn jsstring) :
  (status (finish (send text)) = 200
   /\ exists s, body (finish (send text))
                = Sent (js "text/plain; charset=utf-8") s)
  \/ (status (finish (send text)) ∈ [400; 401; 500; 502; 503]
      /\ exists msg, field "error" (finish (send text)) = Some (VString msg)).
Proof.
  destruct text as [s|e]; simpl; [left; eauto|right].
  destruct (catch_block_shape e) as [Hs Hf]. split; [|done]. widen Hs.
Qed.

Lemma response_shape query_url t sent :
  Runs (extract_handler query_url) t sent ->
  (status sent = 200
   /\ exists text, body sent = Sent (js "text/plain; charset=utf-8") text)
  \/ (status sent ∈ [400; 401; 500; 502; 503]
      /\ exists msg, field "error" sent = Some (VString msg)).
Proof.
  intros Hrun. apply handler_runs in Hrun.
  destruct Hrun as [| | |url u e|url u f err|? ? ? ? ? ? ? ? ? Hd].
  - right. simpl. split; [repeat constructor|by eauto].
  - right. simpl. split; [repeat constructor|by eauto].
  - right. simpl. split; [repeat constructor|by eauto].
  - right. destruct (catch_block_shape e) as [Hs Hf]. split; [widen Hs|done].
  - right. destruct (catch_block_shape err) as [Hs Hf].
    split; [widen Hs|done].
  - destruct Hd; try apply finish_send_shape;
      right; simpl; (split; [repeat constructor|by eauto]).
Qed.

Lemma json_call sent key v :
  field key sent = Some v ->
  exists obj, res_call sent = Some (Status_json (status sent) obj).
Proof. unfold field, res_call. destruct (body sent); [eauto|done]. Qed.

Lemma send_call sent contentType text :
  status sent = 200 -> body sent = Sent contentType text ->
  res_call sent = Some (Set_send contentType text).
Proof. unfold res_call. by intros -> ->. Qed.

(** X3: whatever happens, the handler ends with one of two calls on [res]:
    [res.send(text)] after [res.set('Content-Type',
    'text/plain; charset=utf-8')], with no status set, or
    [res.status(c).json(obj)] with [c] one of 400, 401, 500, 502, 503 and
    [obj.error] a string.  (What Express writes for the call is not stated:
    see [ResCall].) *)
Theorem handler_ends_with_send_or_json_error query_url t sent :
  Runs (extract_handler query_url) t sent ->
  (exists text,
     res_call sent = Some (Set_send (js "text/plain; charset=utf-8") text))
  \/ (exists c obj msg,
        res_call sent = Some (Status_json c obj)
        /\ c ∈ [400; 401; 500; 502; 503]
        /\ field "error" sent = Some (VString msg)).
Proof.
  intros Hrun.
  destruct (response_shape _ _ _ Hrun) as [[Hs [text Hb]]|[Hs [msg Hf]]].
  - left. exists text. by apply send_call.
  - right. destruct (json_call _ _ _ Hf) as [obj Hcall].
    by exists (status sent), obj, msg.
Qed.

(** X4: the handler downloads at most once, before anything else it does,
    and with the URL it was given; the PDF engine and mammoth are only handed
    the bytes of that download. *)
Theorem one_fetch_then_its_bytes query_url t sent :
  Runs (extract_handler query_url) t sent ->
  match t with
  | [] => True
  | o :: rest =>
      exists url a,
        query_url = Some url /\ o = OAxios (fetch_config url) a
        /\ omap fetched rest = []
        /\ forall bytes,
             (exists d, OGetDocument bytes d ∈ rest)
             \/ (exists m, OExtractRawText bytes m ∈ rest) ->
             exists response, a = Ok response /\ bytes = data response
  end.
Proof.
  intros Hrun. apply handler_runs in Hrun.
  destruct Hrun as [| | | |url ? ? err|url ? ? response ? ? ? ? ? Hd];
    try done.
  - exists url, (Throw err). repeat split; try done.
    intros bytes [[d Hin]|[m Hin]]; by apply elem_of_nil in Hin.
  - exists url, (Ok response). split; [done|]. split; [done|].
    destruct Hd; (split; [done|]);
      intros bytes [[d Hin]|[m' Hin]]; elem_cases Hin; simplify_eq; eauto.
Qed.

(** X5: a request detected as [docx] is served by mammoth alone: the global
    [pdfjsLib] is not read, no initialization is started or waited for, and
    the handler ends with [res.send] of the raw text of mammoth as it is,
    typed [text/plain; charset=utf-8] and with no status set, or with the
    call of the [catch] block for what mammoth threw.  (What Express writes
    for the call is not stated: see [ResCall].) *)
Theorem docx_bypasses_pdf_engine query_url t sent buffer m :
  Runs (extract_handler query_url) t sent ->
  OExtractRawText buffer m ∈ t ->
  Forall (fun o => of_pdf_engine o = false) t
  /\ match m with
     | Ok result =>
         res_call sent
         = Some (Set_send (js "text/plain; charset=utf-8") (value result))
     | Throw e => sent = catch_block e
     end.
Proof.
  intros Hrun Hin. apply handler_runs in Hrun.
  destruct Hrun as [| | | | |? ? ? ? ? ? ? ? ? Hd]; elem_cases Hin;
    try discriminate.
  destruct Hd; elem_cases Hin; simplify_eq.
  split; [by repeat constructor|]. by case_match.
Qed.


End Requests.

Section MoreRequests.
Context `{Runtime}.

Lemma decodeURIComponent_throws (s : jsstring) e :
  decodeURIComponent s = Throw e -> e = Error (js "URI malformed").
Proof. unfold decodeURIComponent. case_match; [done|]. by intros [= <-]. Qed.

(** X7: a URL that parses but whose last path segment has a malformed
    escape is not answered as a bad parameter: without any download, the
    answer is 500 [Extraction failed] with the message [URI malformed]. *)
Theorem malformed_escape_is_500 url parsedUrl e t sent :
  url ≠ [] -> new_URL url = Ok parsedUrl ->
  decodeURIComponent (or_empty (pop (split 47 (pathname parsedUrl))))
  = Throw e ->
  Runs (extract_handler (Some url)) t sent ->
  t = []
  /\ sent = json 500 [("error", VString (js "Extraction failed"));
                      ("message", VString (js "URI malformed"))].
Proof.
  intros Hne Hurl Hdec Hrun. apply handler_runs in Hrun.
  assert (Hname : filename_of parsedUrl = Throw (Error (js "URI malformed"))).
  { unfold filename_of. rewrite Hdec.
    by rewrite (decodeURIComponent_throws _ _ Hdec). }
  inversion Hrun as [| |? ? ? Hu|? p ? ? Hp Hf|? p ? ? ? Hp Hf
                    |? p ? ? ? ? ? Hp Hf]; simplify_eq;
    rewrite Hurl in *; simplify_eq; rewrite Hname in *; by simplify_eq.
Qed.

(** X8: when the URL of the request has a file name whose extension is
    neither [pdf] nor [docx] nor empty, the file is downloaded all the same,
    and the request is then rejected as unsupported with this file name and
    this extension, whatever the content type and the final URL of the
    response. *)
Theorem extension_of_request_url_is_final
    url parsedUrl name response t sent :
  new_URL url = Ok parsedUrl -> filename_of parsedUrl = Ok name ->
  name ≠ [] -> ext_of name ≠ [] ->
  ext_of name ≠ js "pdf" -> ext_of name ≠ js "docx" ->
  Runs (extract_handler (Some url)) t sent ->
  OAxios (fetch_config url) (Ok response) ∈ t ->
  t = [OAxios (fetch_config url) (Ok response)]
  /\ sent = json 400
       [("error", VString (js "Unsupported file type... Use .pdf or .docx"));
        ("filename", VString name);
        ("detectedExtension", VString (ext_of name));
        ("contentType", VString (contentType_header (headers response)));
        ("finalUrl", VString (finalUrl_of response url))].
Proof.
  intros Hurl Hname Hne Hext Hpdf Hdocx Hrun Hin.
  apply handler_runs in Hrun.
  assert (Hd : forall resp, detect url name (ext_of name) resp
                 = {| filename := name; ext := ext_of name;
                      contentType := contentType_header (headers resp);
                      finalUrl := finalUrl_of resp url |}).
  { intros resp. unfold detect, refine_from_final, infer_from_contentType.
    destruct name; [done|]. simpl. by destruct (ext_of _). }
  inversion Hrun as [| | | |? ? ? err|? p f response' t' r ? Hp Hf Hrest];
    subst; elem_cases Hin; try discriminate.
  - injection Hin as <-.
    rewrite Hurl in Hp. injection Hp as <-.
    rewrite Hname in Hf. injection Hf as <-.
    rewrite Hd in Hrest. by inversion Hrest; simplify_eq/=.
  - by eapply dispatch_no_fetch in Hin.
Qed.

(** X9: a request never sets the global [pdfjsLib]; it calls [initPdfjs]
    at most once, and only after it has read the global unset; it waits at
    most once, for the promise of that call and against a timer of
    5000 ms. *)
Theorem request_and_the_global query_url t sent :
  Runs (extract_handler query_url) t sent ->
  (forall lib, OWritePdfjsLib lib ∉ t)
  /\ (length (omap Loop.called t) <= 1)%nat
  /\ (length (omap Loop.awaited t) <= 1)%nat
  /\ (forall p, OCallInitPdfjs p ∈ t -> OReadPdfjsLib None ∈ t)
  /\ (forall p ms o, OAwaitRace p ms o ∈ t ->
        ms = 5000 /\ OCallInitPdfjs p ∈ t)
  /\ (forall lib, OReadPdfjsLib (Some lib) ∈ t -> omap Loop.called t = []).
Proof.
  intros Hrun. apply handler_runs in Hrun.
  destruct Hrun as [| | | | |? ? ? ? ? ? ? ? ? Hd]; [..|destruct Hd];
    simpl; repeat split; try lia; repeat intro;
    try match goal with Hin : _ ∈ _ |- _ => elem_cases Hin; simplify_eq end;
    try done; repeat constructor.
Qed.

(** X10: when the decoder gives at most one code unit for a byte, the
    preview of the upstream body in the answer to an upstream error has at
    most 200 code units. *)
Theorem preview_has_at_most_200 query_url t sent cfg err r preview :
  (forall bytes, (length (utf8Decode bytes) <= length bytes)%nat) ->
  Runs (extract_handler query_url) t sent ->
  OAxios cfg (Throw err) ∈ t -> response err = Some r ->
  field "upstreamBodyPreview" sent = Some (VString preview) ->
  (length preview <= 200)%nat.
Proof.
  intros Hdec Hrun Hin Hr Hfield. apply handler_runs in Hrun.
  destruct (handler_fetch _ _ _ _ _ Hrun Hin) as (_ & _ & Herr).
  rewrite (Herr err eq_refl) in Hfield. unfold catch_block in Hfield.
  rewrite Hr in Hfield.
  assert (Hp : bodyPreview (err_data r) = Some preview).
  { destruct (isInvalidJwt _ _); unfold field in Hfield; simpl in Hfield;
      destruct (bodyPreview (err_data r)); by simplify_eq/=. }
  unfold bodyPreview, slice0 in Hp.
  destruct (err_data r) as [s|bytes|[[s|]|]]; simplify_eq;
    rewrite ?length_take; try lia.
  etrans; [apply Hdec|]. rewrite length_take. lia.
Qed.

End MoreRequests.

(** ** The pages of a document *)

Section Pages.
Context `{Runtime}.

Lemma extractPdf_loop_step doc todo i text :
  extractPdf_loop doc (S todo) i text
  = match page_content doc i with
    | Throw e => Throw e
    | Ok content => extractPdf_loop doc todo (S i) (text ++ page_text content)
    end.
Proof.
  simpl. unfold page_content, page_text.
  destruct (getPage doc i) as [page|]; [|done].
  by destruct (getTextContent page).
Qed.

Lemma extractPdf_loop_ext doc1 doc2 todo : forall i text,
  (forall j, (i <= j < i + todo)%nat ->
     page_content doc1 j = page_content doc2 j) ->
  extractPdf_loop doc1 todo i text = extractPdf_loop doc2 todo i text.
Proof.
  induction todo as [|todo IH]; intros i text Hpages; [done|].
  rewrite !extractPdf_loop_step, <- (Hpages i) by lia.
  destruct (page_content doc1 i); [|done].
  apply IH. intros j Hj. apply Hpages. lia.
Qed.

(** X11: the text depends on the pages 1 to [numPages] only: page 0 and
    the pages beyond [numPages] are never asked for. *)
Theorem only_pages_in_range_are_read (doc1 doc2 : PdfDoc) :
  numPages doc1 = numPages doc2 ->
  (forall i, (1 <= i <= numPages doc1)%nat ->
     page_content doc1 i = page_content doc2 i) ->
  pdf_text (Ok doc1) = pdf_text (Ok doc2).
Proof.
  intros Hn Hpages. simpl. rewrite <- Hn.
  apply extractPdf_loop_ext. intros j Hj. apply Hpages. lia.
Qed.

Lemma extractPdf_loop_fails doc k : forall todo i text contents e,
  Forall2 (fun i content => page_content doc i = Ok content)
          (seq i k) contents ->
  page_content doc (i + k) = Throw e -> (k < todo)%nat ->
  extractPdf_loop doc todo i text = Throw e.
Proof.
  induction k as [|k IH]; intros todo i text contents e Hok He Hk;
    (destruct todo as [|todo]; [lia|]); rewrite extractPdf_loop_step.
  - rewrite Nat.add_0_r in He. by rewrite He.
  - simpl in Hok.
    apply Forall2_cons_inv_l in Hok as (content & rest & Hc & Hrest & ->).
    rewrite Hc. eapply IH; [done| |lia].
    by replace (S i + k)%nat with (i + S k)%nat by lia.
Qed.

(** X12: when a page does not load, or its text content does not, the
    extraction fails with the error of the first such page, and the text of
    the pages before it is lost. *)
Theorem first_failing_page_fails_the_document doc k contents e :
  Forall2 (fun i content => page_content doc i = Ok content)
          (seq 1 k) contents ->
  page_content doc (S k) = Throw e -> (k < numPages doc)%nat ->
  pdf_text (Ok doc) = Throw e.
Proof.
  intros Hok He Hk. simpl. by eapply extractPdf_loop_fails.
Qed.

Lemma split_app_sep sep (a b : jsstring) :
  sep ∉ a -> split sep (a ++ sep :: b) = a :: split sep b.
Proof.
  induction a as [|c a IH]; intros Ha; simpl.
  - by rewrite N.eqb_refl.
  - apply not_elem_of_cons in Ha as [Hc Ha].
    rewrite (proj2 (N.eqb_neq c sep)) by done. by rewrite IH.
Qed.

Lemma join_without sep c (strs : list jsstring) :
  c ∉ sep -> (forall s, s ∈ strs -> c ∉ s) -> c ∉ join sep strs.
Proof.
  intros Hsep. induction strs as [|s strs IH]; intros Hstrs; simpl.
  - apply not_elem_of_nil.
  - destruct strs as [|s' strs].
    + apply Hstrs. by left.
    + rewrite !not_elem_of_app. split; [apply Hstrs; by left|].
      split; [done|]. apply IH. intros s0 Hs0. apply Hstrs. by right.
Qed.

(** X13: when no text item contains a newline, the pages can be read
    back from the text: cut at the newlines, it gives the line of each page
    in order, and one empty piece after the last newline. *)
Theorem pages_are_the_lines_of_the_text doc contents :
  Forall2 (fun i content => page_content doc i = Ok content)
          (seq 1 (numPages doc)) contents ->
  (forall content item, content ∈ contents -> item ∈ items content ->
     10 ∉ str item) ->
  exists text,
    pdf_text (Ok doc) = Ok text
    /\ split 10 text
       = map (fun content => join (js " ") (map str (items content))) contents
         ++ [[]].
Proof.
  intros Hok Hitems. exists (concat (map page_text contents)).
  split; [simpl; by rewrite (extractPdf_loop_spec _ _ _ _ _ Hok)|].
  clear Hok. induction contents as [|content contents IH]; [done|].
  simpl. unfold page_text at 1. rewrite <- app_assoc. simpl.
  rewrite split_app_sep.
  - f_equal. apply IH. intros c item Hc. apply Hitems. by right.
  - apply join_without.
    + intros Hin. elem_cases Hin. discriminate.
    + intros s Hs. apply list_elem_of_fmap in Hs as (item & -> & Hitem).
      eapply Hitems; [by left|done].
Qed.

End Pages.

(** ** The initialization *)

Section Initialization.
Context `{Runtime}.

Ltac init_cases :=
  repeat split; repeat intro; simplify_eq;
  repeat match goal with
         | Hin : _ ∈ _ |- _ => elem_cases Hin; simplify_eq
         end;
  try (eexists; repeat constructor); repeat constructor.


(** X14: [initPdfjs] resolves whenever the legacy build can be imported,
    also when its worker file cannot be found, and otherwise whenever the
    default build can be required; it resolves only after it has set the
    global, to the legacy build in the first case; it rejects only when
    both fail, with the error of the [require], the global left as it
    was.  The assignments to [workerSrc] are taken not to throw. *)
Theorem initPdfjs_outcome t r :
  Runs initPdfjs t r ->
  (OImportLegacy (Ok ()) ∈ t ->
     r = Ok () /\ OWritePdfjsLib LegacyBuild ∈ t
     /\ forall x, ORequireDefault x ∉ t)
  /\ (ORequireDefault (Ok ()) ∈ t ->
        r = Ok () /\ OWritePdfjsLib DefaultBuild ∈ t)
  /\ (r = Ok () -> exists lib, OWritePdfjsLib lib ∈ t)
  /\ (forall e, r = Throw e ->
        ORequireDefault (Throw e) ∈ t
        /\ (exists e1, OImportLegacy (Throw e1) ∈ t)
        /\ forall lib, OWritePdfjsLib lib ∉ t).
Proof.
  unfold initPdfjs. prog_simpl.
  intros ([[]|e1] & t1 & -> & Hrun); simpl in Hrun.
  - destruct Hrun as ([] & t2 & -> & [w|e] & t3 & -> & Hrun); simpl in Hrun.
    + destruct Hrun as ([] & t4 & -> & -> & ->).
      init_cases.
    + destruct Hrun as [-> ->]. init_cases.
  - destruct Hrun as ([[]|e2] & t2 & -> & Hrun); simpl in Hrun.
    + destruct Hrun as ([] & t3 & -> & [] & t4 & -> & -> & ->).
      init_cases.
    + destruct Hrun as [-> ->]. init_cases.
Qed.

End Initialization.

(** ** The global in the process *)

Section Global.
Context `{Runtime}.
Import Loop.
















End Global.

(** ** The pattern of the expiry heuristic *)

Section Patterns.
Import RegExp Language.
Variable ignoreCase : bool.

Local Abbreviation Matches := (Language.Matches ignoreCase).

Lemma nullable_Matches r : nullable r = true <-> Matches r [].
Proof.
  split.
  - induction r; simpl; intros Hn; try done.
    + constructor.
    + apply andb_true_iff in Hn as [H1 H2].
      change (@nil N) with (@nil N ++ []). constructor; auto.
    + apply orb_true_iff in Hn as [H1|H2];
        [apply Matches_Alt_l|apply Matches_Alt_r]; auto.
    + constructor.
  - intros Hm. remember [] as s eqn:Hs.
    induction Hm; simpl; try done.
    + apply app_eq_nil in Hs as [-> ->]. by rewrite IHHm1, IHHm2.
    + by rewrite IHHm.
    + rewrite IHHm by done. by rewrite orb_true_r.
Qed.

Lemma Matches_Star_cons r c s :
  Matches (Star r) (c :: s) ->
  exists s1 s2, s = s1 ++ s2 /\ Matches r (c :: s1) /\ Matches (Star r) s2.
Proof.
  intros Hm. remember (Star r) as r' eqn:Hr. remember (c :: s) as cs eqn:Hcs.
  revert s Hcs. induction Hm; intros s' Hcs; try done.
  injection Hr as ->. destruct s1 as [|d s1].
  - simpl in Hcs. by apply IHHm2.
  - injection Hcs as -> <-. eauto.
Qed.

Lemma deriv_Matches r : forall c s,
  Matches (deriv ignoreCase c r) s <-> Matches r (c :: s).
Proof.
  induction r as [| |p| |r1 IH1 r2 IH2|r1 IH1 r2 IH2|r IH]; intros c s; simpl.
  - split; inversion 1.
  - split; inversion 1.
  - destruct (char_matches ignoreCase p c) eqn:Hc; split; inversion 1; subst.
    + by constructor.
    + constructor.
    + congruence.
  - destruct (isLineTerminator c) eqn:Hc; split; inversion 1; subst.
    + congruence.
    + by constructor.
    + constructor.
  - assert (Hseq : Matches (Seq (deriv ignoreCase c r1) r2) s
                   <-> exists s1 s2, s = s1 ++ s2 /\ Matches r1 (c :: s1)
                                     /\ Matches r2 s2).
    { split.
      - inversion 1; subst. eexists _, _. split; [done|].
        split; [by apply IH1|done].
      - intros (s1 & s2 & -> & H1 & H2). constructor; [by apply IH1|done]. }
    assert (Hcons : Matches (Seq r1 r2) (c :: s)
              <-> (exists s1 s2, s = s1 ++ s2 /\ Matches r1 (c :: s1)
                                 /\ Matches r2 s2)
                  \/ (Matches r1 [] /\ Matches r2 (c :: s))).
    { split.
      - intros Hm. remember (c :: s) as cs eqn:Hcs.
        inversion Hm as [| | |? ? s1 s2 H1 H2| | | |]; subst.
        destruct s1 as [|d s1]; simpl in *.
        + right. by subst.
        + match goal with E : _ :: _ = _ :: _ |- _ => injection E as -> <- end.
          left. eauto.
      - intros [(s1 & s2 & -> & H1 & H2)|[H1 H2]].
        + change (c :: s1 ++ s2) with ((c :: s1) ++ s2). by constructor.
        + change (c :: s) with ([] ++ c :: s). by constructor. }
    rewrite Hcons. destruct (nullable r1) eqn:Hn.
    + split.
      * inversion 1; subst; [left; by apply Hseq|right].
        split; [by apply nullable_Matches|by apply IH2].
      * intros [Hl|[_ Hr]]; [apply Matches_Alt_l; by apply Hseq|].
        apply Matches_Alt_r. by apply IH2.
    + rewrite Hseq. split; [by left|]. intros [Hl|[Hr _]]; [done|].
      apply nullable_Matches in Hr. congruence.
  - split.
    + inversion 1; subst; [apply Matches_Alt_l; by apply IH1|].
      apply Matches_Alt_r. by apply IH2.
    + inversion 1; subst; [apply Matches_Alt_l; by apply IH1|].
      apply Matches_Alt_r. by apply IH2.
  - split.
    + inversion 1; subst.
      change (c :: s1 ++ s2) with ((c :: s1) ++ s2).
      constructor; [by apply IH|done].
    + intros Hm. apply Matches_Star_cons in Hm as (s1 & s2 & -> & H1 & H2).
      constructor; [by apply IH|done].
Qed.

Lemma matches_at_Matches : forall s r,
  matches_at ignoreCase r s = true
  <-> exists p rest, s = p ++ rest /\ Matches r p.
Proof.
  induction s as [|c s IH]; intros r; simpl.
  - rewrite orb_false_r, nullable_Matches. split.
    + intros Hm. by exists [], [].
    + intros (p & rest & Hs & Hm). symmetry in Hs.
      by apply app_eq_nil in Hs as [-> ->].
  - rewrite orb_true_iff, nullable_Matches, IH. split.
    + intros [Hm|(p & rest & -> & Hm)].
      * by exists [], (c :: s).
      * exists (c :: p), rest. split; [done|]. by apply deriv_Matches.
    + intros ([|d p] & rest & Hs & Hm); [by left|right].
      injection Hs as <- ->. exists p, rest. split; [done|].
      by apply deriv_Matches.
Qed.

Lemma test_Matches : forall s r,
  test ignoreCase r s = true
  <-> exists before p rest, s = before ++ p ++ rest /\ Matches r p.
Proof.
  induction s as [|c s IH]; intros r; cbn [test].
  - rewrite orb_false_r, matches_at_Matches. split.
    + intros (p & rest & -> & Hm). by exists [], p, rest.
    + intros (before & p & rest & Hs & Hm). symmetry in Hs.
      apply app_eq_nil in Hs as [-> Hs]. eauto.
  - rewrite orb_true_iff, matches_at_Matches, IH. split.
    + intros [(p & rest & -> & Hm)|(before & p & rest & -> & Hm)].
      * by exists [], p, rest.
      * by exists (c :: before), p, rest.
    + intros ([|d before] & p & rest & Hs & Hm).
      * left. by exists p, rest.
      * injection Hs as <- ->. right. by exists before, p, rest.
Qed.

Lemma Matches_Seq_iff r1 r2 s :
  Matches (Seq r1 r2) s
  <-> exists s1 s2, s = s1 ++ s2 /\ Matches r1 s1 /\ Matches r2 s2.
Proof.
  split.
  - inversion 1; subst. eauto.
  - intros (s1 & s2 & -> & H1 & H2). by constructor.
Qed.

Lemma Matches_Alt_iff r1 r2 s :
  Matches (Alt r1 r2) s <-> Matches r1 s \/ Matches r2 s.
Proof.
  split.
  - inversion 1; subst; auto.
  - intros [Hm|Hm]; [by apply Matches_Alt_l|by apply Matches_Alt_r].
Qed.

Lemma literal_Matches : forall p s,
  Matches (literal p) s
  <-> Forall2 (fun a b => char_matches ignoreCase a b = true) p s.
Proof.
  induction p as [|a p IH]; intros s; simpl.
  - split.
    + inversion 1. constructor.
    + inversion 1. constructor.
  - split.
    + inversion 1 as [| | |? ? s1 s2 H1 H2| | | |]; subst.
      inversion H1; subst. simpl. constructor; [done|]. by apply IH.
    + inversion 1 as [|? b ? s' Hab Hs]; subst.
      change (b :: s') with ([b] ++ s').
      constructor; [by constructor|by apply IH].
Qed.

Lemma Star_Dot_Matches s :
  Matches (Star Dot) s <-> Forall (fun c => isLineTerminator c = false) s.
Proof.
  split.
  - intros Hm. remember (Star Dot) as r eqn:Hr.
    induction Hm; try done.
    injection Hr as ->. inversion Hm1; subst. constructor; [done|].
    by apply IHHm2.
  - induction 1 as [|c s Hc Hs IH]; [constructor|].
    change (c :: s) with ([c] ++ s). constructor; [by constructor|done].
Qed.

End Patterns.

Lemma literal_same_word p s :
  Language.Matches true (RegExp.literal p) s <-> Language.same_word p s.
Proof.
  rewrite literal_Matches. unfold Language.same_word, RegExp.char_matches.
  split; intros Hm; eapply Forall2_impl; try exact Hm; simpl; intros a b.
  - apply N.eqb_eq.
  - intros ->. apply N.eqb_refl.
Qed.

(** X17: the pattern [/exp.*(fail|expired)/i] of the expiry heuristic
    matches a preview exactly when the preview contains the word [exp] and,
    later and with no line terminator in between, the word [fail] or the word
    [expired], each in any mix of upper and lower case. *)
Theorem exp_fail_matches_exactly (preview : jsstring) :
  RegExp.test true exp_fail preview = true
  <-> exists before x gap y rest,
        preview = before ++ x ++ gap ++ y ++ rest
        /\ Language.same_word (js "exp") x
        /\ Forall (fun c => RegExp.isLineTerminator c = false) gap
        /\ (Language.same_word (js "fail") y
            \/ Language.same_word (js "expired") y).
Proof.
  rewrite test_Matches. unfold exp_fail. split.
  - intros (before & p & rest & -> & Hm).
    apply Matches_Seq_iff in Hm as (x & s' & -> & Hx & Hs').
    apply Matches_Seq_iff in Hs' as (gap & y & -> & Hgap & Hy).
    apply Matches_Alt_iff in Hy.
    exists before, x, gap, y, rest. rewrite <- !(assoc_L (++)).
    split; [done|]. split; [by apply literal_same_word|].
    split; [by apply (Star_Dot_Matches true)|].
    destruct Hy as [Hy|Hy]; [left|right]; by apply literal_same_word.
  - intros (before & x & gap & y & rest & -> & Hx & Hgap & Hy).
    exists before, (x ++ gap ++ y), rest. rewrite <- !(assoc_L (++)).
    split; [done|].
    apply Matches_Seq_iff. exists x, (gap ++ y).
    split; [done|]. split; [by apply literal_same_word|].
    apply Matches_Seq_iff. exists gap, y.
    split; [done|]. split; [by apply (Star_Dot_Matches true)|].
    apply Matches_Alt_iff.
    destruct Hy as [Hy|Hy]; [left|right]; by apply literal_same_word.
Qed.

(** ** The final URL *)

Section FinalUrl.
Context `{Runtime}.

Lemma fetched_run url parsedUrl name response t sent :
  new_URL url = Ok parsedUrl -> filename_of parsedUrl = Ok name ->
  Runs (extract_handler (Some url)) t sent ->
  OAxios (fetch_config url) (Ok response) ∈ t ->
  exists t' r,
    t = OAxios (fetch_config url) (Ok response) :: t'
    /\ DispatchRun (detect url name (ext_of name) response) response t' r
    /\ sent = finish r.
Proof.
  intros Hurl Hname Hrun Hin. apply handler_runs in Hrun.
  inversion Hrun as [| | | |? ? ? err|? p f response' t' r ? Hp Hf Hrest];
    subst; elem_cases Hin; try discriminate.
  - injection Hin as <-.
    rewrite Hurl in Hp. injection Hp as <-.
    rewrite Hname in Hf. injection Hf as <-. eauto.
  - by eapply dispatch_no_fetch in Hin.
Qed.

(** X18: when the URL of the request ends without a file name and the final
    URL of the response has one with the extension [docx], the bytes go to
    the DOCX converter and to nothing else, whatever the content type of the
    response says. *)
Theorem final_url_extension_beats_content_type
    url parsedUrl response p name t sent :
  new_URL url = Ok parsedUrl -> filename_of parsedUrl = Ok [] ->
  new_URL (finalUrl_of response url) = Ok p -> filename_of p = Ok name ->
  ext_of name = js "docx" ->
  Runs (extract_handler (Some url)) t sent ->
  OAxios (fetch_config url) (Ok response) ∈ t ->
  exists m,
    t = [OAxios (fetch_config url) (Ok response);
         OExtractRawText (data response) m]
    /\ sent = finish (send (docx_text m)).
Proof.
  intros Hurl Hname Hfinal Hname' Hext Hrun Hin.
  assert (Hne : url ≠ []).
  { intros ->. apply handler_runs in Hrun.
    inversion Hrun; subst; try done. by apply elem_of_nil in Hin. }
  destruct (fetched_run _ _ _ _ _ _ Hurl Hname Hrun Hin)
    as (t' & r & -> & Hd & ->).
  assert (Hdet : ext (detect url [] (ext_of []) response) = js "docx").
  { unfold detect, refine_from_final. simpl.
    rewrite (finalUrl_truthy _ _ Hne), Hfinal, Hname'. simpl.
    unfold infer_from_contentType. by rewrite Hext. }
  inversion Hd as [? ? E|? ? ? E|? ? ? E| |]; subst;
    try (rewrite Hdet in E; discriminate); [eauto|congruence].
Qed.

(** X19: a final URL that does not parse, or whose last segment is not a
    valid percent-encoding, does not fail the request: the file name stays
    empty and the type is looked up in the content type. *)
Theorem unreadable_final_url_is_ignored
    url parsedUrl response t sent :
  new_URL url = Ok parsedUrl -> filename_of parsedUrl = Ok [] ->
  (forall p, new_URL (finalUrl_of response url) = Ok p ->
             exists e, filename_of p = Throw e) ->
  Runs (extract_handler (Some url)) t sent ->
  OAxios (fetch_config url) (Ok response) ∈ t ->
  let contentType := contentType_header (headers response) in
  exists t' r,
    t = OAxios (fetch_config url) (Ok response) :: t'
    /\ DispatchRun
         {| filename := [];
            ext := infer_from_contentType (ext_of []) contentType;
            contentType := contentType;
            finalUrl := finalUrl_of response url |} response t' r
    /\ sent = finish r.
Proof.
  intros Hurl Hname Hfinal Hrun Hin contentType'.
  destruct (fetched_run _ _ _ _ _ _ Hurl Hname Hrun Hin)
    as (t' & r & -> & Hd & ->).
  exists t', r. split; [done|]. split; [|done].
  replace (detect url [] (ext_of []) response) with
    {| filename := [];
       ext := infer_from_contentType (ext_of []) contentType';
       contentType := contentType';
       finalUrl := finalUrl_of response url |} in Hd; [done|].
  unfold detect, refine_from_final. simpl.
  destruct (truthy (finalUrl_of response url)); [|done].
  destruct (new_URL (finalUrl_of response url)) as [p|e] eqn:Hp; [|done].
  destruct (Hfinal p eq_refl) as [e ->]. done.
Qed.

End FinalUrl.

(** ** The further properties on the examples *)

Section Cases.
Import Example Scenario Cases.

Lemma filename_is_sanitized_witness :
  filename_of spaced_path = Ok (js "ab.pdf")
  /\ (forall c, c ∈ js "ab.pdf" -> c ≠ 13 /\ c ≠ 10)
  /\ (forall c, head (js "ab.pdf") = Some c -> isWhiteSpace c = false)
  /\ (forall c, last (js "ab.pdf") = Some c -> isWhiteSpace c = false).
Proof.
  assert (Hname : filename_of spaced_path = Ok (js "ab.pdf"))
    by (by vm_compute).
  split; [done|]. exact (filename_is_sanitized _ _ Hname).
Defined.

Lemma handler_ends_with_send_or_json_error_witness :
  let p := extract_handler (H := runtime) (Some docx_url) in
  Runs p (trace env_letter p) (result env_letter p)
  /\ res_call (result env_letter p)
     = Some (Set_send (js "text/plain; charset=utf-8") (js "Dear reader")).
Proof.
  intros p. assert (Hrun := Runs_env env_letter p).
  split; [done|].
  destruct (handler_ends_with_send_or_json_error (H := runtime) _ _ _ Hrun)
    as [[text Hcall]|(c & obj & msg & Hcall & _)]; by vm_compute.
Defined.

Lemma one_fetch_then_its_bytes_witness :
  let p := extract_handler (H := runtime) (Some docx_url) in
  Runs p (trace env_letter p) (result env_letter p)
  /\ trace env_letter p
     = [OAxios (fetch_config docx_url) (Ok docx_response);
        OExtractRawText [80; 75; 3; 4] (Ok letter)]
  /\ exists response,
       Ok docx_response = Ok response /\ [80; 75; 3; 4] = data response.
Proof.
  intros p. assert (Hrun := Runs_env env_letter p).
  assert (Ht : trace env_letter p
               = [OAxios (fetch_config docx_url) (Ok docx_response);
                  OExtractRawText [80; 75; 3; 4] (Ok letter)])
    by (by vm_compute).
  split; [done|]. split; [done|].
  assert (Hx := one_fetch_then_its_bytes (H := runtime) _ _ _ Hrun).
  rewrite Ht in Hx. destruct Hx as (url & a & _ & Ha & _ & Hbytes).
  injection Ha as _ <-. apply Hbytes. right. exists (Ok letter). left.
Defined.

Lemma docx_bypasses_pdf_engine_witness :
  let p := extract_handler (H := runtime) (Some docx_url) in
  Runs p (trace env_letter p) (result env_letter p)
  /\ OExtractRawText [80; 75; 3; 4] (Ok letter) ∈ trace env_letter p
  /\ Forall (fun o => of_pdf_engine o = false) (trace env_letter p)
  /\ res_call (result env_letter p)
     = Some (Set_send (js "text/plain; charset=utf-8") (js "Dear reader")).
Proof.
  intros p. assert (Hrun := Runs_env env_letter p).
  assert (Hin : OExtractRawText [80; 75; 3; 4] (Ok letter)
                ∈ trace env_letter p) by (vm_compute; right; left).
  split; [done|]. split; [done|].
  exact (docx_bypasses_pdf_engine (H := runtime) _ _ _ _ _ Hrun Hin).
Defined.


Lemma malformed_escape_is_500_witness :
  let p := extract_handler (H := runtime) (Some bad_escape_url) in
  new_URL (Runtime := runtime) bad_escape_url
  = Ok {| pathname := js "/docs/%E0%A4%A.pdf" |}
  /\ Runs p (trace failing p) (result failing p)
  /\ trace failing p = []
  /\ result failing p
     = json 500 [("error", VString (js "Extraction failed"));
                 ("message", VString (js "URI malformed"))].
Proof.
  intros p. assert (Hrun := Runs_env failing p).
  split; [by vm_compute|]. split; [done|].
  apply (malformed_escape_is_500 (H := runtime) bad_escape_url
           {| pathname := js "/docs/%E0%A4%A.pdf" |}
           (Error (js "URI malformed")));
    solve [done | by vm_compute].
Defined.

Lemma extension_of_request_url_is_final_witness :
  let p := extract_handler (H := runtime) (Some notes_url) in
  Runs p (trace env_pdf_response p) (result env_pdf_response p)
  /\ ext_of (H := runtime) (js "notes.txt") = js "txt"
  /\ contentType_header (headers pdf_response) = js "application/pdf"
  /\ trace env_pdf_response p
     = [OAxios (fetch_config notes_url) (Ok pdf_response)]
  /\ field "detectedExtension" (result env_pdf_response p)
     = Some (VString (js "txt")).
Proof.
  intros p. assert (Hrun := Runs_env env_pdf_response p).
  assert (Hin : OAxios (fetch_config notes_url) (Ok pdf_response)
                ∈ trace env_pdf_response p) by (vm_compute; left).
  split; [done|]. split; [by vm_compute|]. split; [by vm_compute|].
  assert (Hx := fun H1 H2 H3 H4 H5 H6 =>
            extension_of_request_url_is_final (H := runtime) notes_url
              {| pathname := js "/docs/notes.txt" |} (js "notes.txt")
              pdf_response _ _ H1 H2 H3 H4 H5 H6 Hrun Hin).
  destruct Hx as [-> ->]; solve [done | by vm_compute].
Defined.

Lemma request_and_the_global_witness :
  let p := extract_handler (H := runtime) (Some pdf_url) in
  Runs p (trace env_not_ready p) (result env_not_ready p)
  /\ OCallInitPdfjs 1 ∈ trace env_not_ready p
  /\ OReadPdfjsLib None ∈ trace env_not_ready p
  /\ (length (omap Loop.called (trace env_not_ready p)) <= 1)%nat.
Proof.
  intros p. assert (Hrun := Runs_env env_not_ready p).
  assert (Hin : OCallInitPdfjs 1 ∈ trace env_not_ready p)
    by (vm_compute; right; right; left).
  split; [done|]. split; [done|].
  destruct (request_and_the_global (H := runtime) _ _ _ Hrun)
    as (_ & Hcalls & _ & Hread & _).
  split; [by apply (Hread 1%nat)|done].
Defined.

Lemma preview_has_at_most_200_witness :
  let p := extract_handler (H := runtime) (Some pdf_url) in
  (forall bytes,
     (length (utf8Decode (Runtime := runtime) bytes) <= length bytes)%nat)
  /\ Runs p (trace env_expired p) (result env_expired p)
  /\ OAxios (fetch_config pdf_url) (Throw expired) ∈ trace env_expired p
  /\ field "upstreamBodyPreview" (result env_expired p)
     = Some (VString (js "{ statusCode: 400, error: InvalidJWT }"))
  /\ (length (js "{ statusCode: 400, error: InvalidJWT }") <= 200)%nat.
Proof.
  intros p. assert (Hrun := Runs_env env_expired p).
  assert (Hin : OAxios (fetch_config pdf_url) (Throw expired)
                ∈ trace env_expired p) by (vm_compute; left).
  assert (Hdecode : forall bytes,
            (length (utf8Decode (Runtime := runtime) bytes)
             <= length bytes)%nat) by (intros bytes; simpl; lia).
  assert (Hpreview : field "upstreamBodyPreview" (result env_expired p)
            = Some (VString (js "{ statusCode: 400, error: InvalidJWT }")))
    by (by vm_compute).
  split; [done|]. split; [done|]. split; [done|]. split; [done|].
  exact (preview_has_at_most_200 (H := runtime) _ _ _ _ _ _ _
           Hdecode Hrun Hin eq_refl Hpreview).
Defined.

Lemma only_pages_in_range_are_read_witness :
  getPage three_pages 4 ≠ getPage longer 4
  /\ pdf_text (Ok three_pages) = pdf_text (Ok longer).
Proof.
  split; [done|].
  apply only_pages_in_range_are_read; [done|].
  intros i Hi. simpl in Hi.
  assert (Hcases : (i = 1 \/ i = 2 \/ i = 3)%nat) by lia.
  by destruct Hcases as [Hc|[Hc|Hc]]; rewrite Hc.
Defined.

Lemma first_failing_page_fails_the_document_witness :
  page_content torn 1
  = Ok {| items := [ {| str := js "Annual" |}; {| str := js "report" |} ] |}
  /\ page_content torn 2 = Throw (Error (js "Invalid page request."))
  /\ pdf_text (Ok torn) = Throw (Error (js "Invalid page request.")).
Proof.
  split; [done|]. split; [done|].
  apply (first_failing_page_fails_the_document torn 1
           [ {| items := [ {| str := js "Annual" |};
                           {| str := js "report" |} ] |} ]);
    [by repeat constructor|done|simpl; lia].
Defined.

Lemma pages_are_the_lines_of_the_text_witness :
  exists text,
    pdf_text (Ok three_pages) = Ok text
    /\ split 10 text = [js "Annual report"; js "2024"; []; []].
Proof.
  apply (pages_are_the_lines_of_the_text three_pages
    [ {| items := [ {| str := js "Annual" |}; {| str := js "report" |} ] |};
      {| items := [ {| str := js "2024" |} ] |};
      {| items := [] |} ]).
  - by repeat constructor.
  - intros content item Hc Hi.
    elem_cases Hc; subst; simpl in Hi; elem_cases Hi; subst;
      apply (bool_decide_unpack _); by vm_compute.
Defined.

Lemma initPdfjs_outcome_witness :
  Runs initPdfjs (trace failing initPdfjs) (result failing initPdfjs)
  /\ OImportLegacy (Ok ()) ∈ trace failing initPdfjs
  /\ result failing initPdfjs = Ok ()
  /\ OWritePdfjsLib LegacyBuild ∈ trace failing initPdfjs.
Proof.
  assert (Hrun := Runs_env failing initPdfjs).
  assert (Hin : OImportLegacy (Ok ()) ∈ trace failing initPdfjs)
    by (vm_compute; left).
  split; [done|]. split; [done|].
  destruct (initPdfjs_outcome _ _ Hrun) as (Himport & _).
  destruct (Himport Hin) as (Hr & Hw & _). by split.
Defined.



Lemma final_url_extension_beats_content_type_witness :
  let p := extract_handler (H := runtime) (Some folder_url) in
  let env := env_redirected letter_target in
  Runs p (trace env p) (result env p)
  /\ includes (contentType_header (headers (redirected letter_target)))
              (js "pdf") = true
  /\ ext_of (H := runtime) (js "letter.docx") = js "docx"
  /\ exists m,
       trace env p
       = [OAxios (fetch_config folder_url) (Ok (redirected letter_target));
          OExtractRawText [80; 75; 3; 4] m].
Proof.
  intros p env. assert (Hrun := Runs_env env p).
  assert (Hin : OAxios (fetch_config folder_url)
                       (Ok (redirected letter_target)) ∈ trace env p)
    by (vm_compute; left).
  split; [done|]. split; [by vm_compute|]. split; [by vm_compute|].
  assert (Hx := fun H1 H2 H3 H4 H5 =>
            final_url_extension_beats_content_type (H := runtime) folder_url
              {| pathname := js "/download/" |} (redirected letter_target)
              {| pathname := js "/store/letter.docx" |} (js "letter.docx")
              _ _ H1 H2 H3 H4 H5 Hrun Hin).
  destruct Hx as (m & Ht & _); try solve [done | by vm_compute].
  by exists m.
Defined.

Lemma unreadable_final_url_is_ignored_witness :
  let p := extract_handler (H := runtime) (Some folder_url) in
  let env := env_redirected bad_escape_target in
  let response := redirected bad_escape_target in
  Runs p (trace env p) (result env p)
  /\ new_URL (Runtime := runtime) (finalUrl_of response folder_url)
     = Ok {| pathname := js "/store/%E0%A4%A" |}
  /\ filename_of {| pathname := js "/store/%E0%A4%A" |}
     = Throw (Error (js "URI malformed"))
  /\ exists t' r,
       trace env p = OAxios (fetch_config folder_url) (Ok response) :: t'
       /\ DispatchRun
            {| filename := [];
               ext := js "pdf";
               contentType := js "application/pdf";
               finalUrl := bad_escape_target |} response t' r
       /\ result env p = finish (H := runtime) r.
Proof.
  intros p env response. assert (Hrun := Runs_env env p).
  assert (Hin : OAxios (fetch_config folder_url) (Ok response) ∈ trace env p)
    by (vm_compute; left).
  assert (Hparse : new_URL (Runtime := runtime)
                     (finalUrl_of response folder_url)
                   = Ok {| pathname := js "/store/%E0%A4%A" |})
    by (by vm_compute).
  assert (Hname : filename_of {| pathname := js "/store/%E0%A4%A" |}
                  = Throw (Error (js "URI malformed"))) by (by vm_compute).
  split; [done|]. split; [done|]. split; [done|].
  apply (unreadable_final_url_is_ignored (H := runtime) folder_url
           {| pathname := js "/download/" |} response _ _);
    try solve [done | by vm_compute].
  intros u Hu. rewrite Hparse in Hu. injection Hu as <-. by eexists.
Defined.

End Cases.
